(** * Shallow embedding of scarxity/go-pagination

    The Go package [pagination] (pagination.go, helpers.go) together with the
    example filters and the README filter that validates includes.  Go [int]
    and [int64] are 64-bit integers, modelled as [Z]; Go strings as Rocq
    [string]s (byte strings); Go [float64] arithmetic as the IEEE-754
    binary64 specification of the Standard Library ([SpecFloat] with
    [prec = 53] and [emax = 1024]). *)

From Stdlib Require Import ZArith Lia String Ascii List Bool.
From Stdlib Require Import Floats.SpecFloat.
From stdpp Require Import base gmap strings.

Import ListNotations.
Open Scope Z_scope.

(* ------------------------------------------------------------------ *)
(** ** Go [float64] *)

Module GoFloat.

Definition prec : Z := 53.
Definition emax : Z := 1024.

Abbreviation float64 := spec_float.

(** [float64(z)] for an integer [z]: round to nearest even. *)
Definition of_int (z : Z) : float64 := binary_normalize prec emax z 0 false.

(** [x / y] on [float64]. *)
Definition div (x y : float64) : float64 := SFdiv prec emax x y.

(** [math.Ceil]: [Ceil(+-0) = +-0], [Ceil(+-Inf) = +-Inf], [Ceil(NaN) = NaN];
    a finite value with a non-negative exponent is already integral; otherwise
    the least integer above it, with the sign kept ([Ceil(-0.5) = -0]). *)
Definition Ceil (x : float64) : float64 :=
  match x with
  | S754_finite s m e =>
      if Z.leb 0 e then x
      else
        let k := 2 ^ (- e) in
        let c := if s then - (Zpos m / k) else (Zpos m + k - 1) / k in
        binary_normalize prec emax c 0 s
  | _ => x
  end.

Section Conversion.

(** The value of a non-constant conversion [int64(x)] when [x] is NaN,
    infinite or out of range is implementation-dependent in Go (amd64 yields
    [math.MinInt64]); it is a parameter of the model. *)
Variable int64_indefinite : Z.

(** [int64(x)]: truncation toward zero. *)
Definition to_int64 (x : float64) : Z :=
  match x with
  | S754_zero _ => 0
  | S754_finite s m e =>
      let t := if Z.leb 0 e then Zpos m * 2 ^ e else Zpos m / 2 ^ (- e) in
      let v := if s then - t else t in
      if andb (Z.leb (- 2 ^ 63) v) (Z.ltb v (2 ^ 63)) then v else int64_indefinite
  | _ => int64_indefinite
  end.

End Conversion.

End GoFloat.

(* ------------------------------------------------------------------ *)
(** ** Go strings and [strconv] *)

Module GoStr.

Definition is_digit (c : ascii) : bool :=
  let n := nat_of_ascii c in (48 <=? n)%nat && (n <=? 57)%nat.

Fixpoint digits_value (s : string) (acc : Z) : option Z :=
  match s with
  | EmptyString => Some acc
  | String c s' =>
      if is_digit c then digits_value s' (acc * 10 + Z.of_nat (nat_of_ascii c - 48))
      else None
  end.

Definition in_int64 (v : Z) : bool := (- 2 ^ 63 <=? v) && (v <? 2 ^ 63).

(** [strconv.Atoi] on a 64-bit platform: an optional sign followed by one or
    more decimal digits, in the range of [int]; anything else is an error
    ([None]). *)
Definition Atoi (s : string) : option Z :=
  let r :=
    match s with
    | EmptyString => None
    | String c rest =>
        if Ascii.eqb c "+"%char then
          (if String.eqb rest "" then None else digits_value rest 0)
        else if Ascii.eqb c "-"%char then
          (if String.eqb rest "" then None
           else option_map Z.opp (digits_value rest 0))
        else digits_value s 0
    end in
  match r with
  | Some v => if in_int64 v then Some v else None
  | None => None
  end.

Definition lower_ascii (c : ascii) : ascii :=
  let n := nat_of_ascii c in
  if (65 <=? n)%nat && (n <=? 90)%nat then ascii_of_nat (n + 32) else c.

(** [strings.ToLower], on the ASCII letters (no other character lowers to
    one of the letters compared against below). *)
Fixpoint ToLower (s : string) : string :=
  match s with
  | EmptyString => EmptyString
  | String c s' => String (lower_ascii c) (ToLower s')
  end.

(** [strings.Join]. *)
Fixpoint Join (elems : list string) (sep : string) : string :=
  match elems with
  | [] => ""
  | [x] => x
  | x :: rest => x ++ sep ++ Join rest sep
  end.

End GoStr.

(* ------------------------------------------------------------------ *)
(** ** gin request context *)

(** A request's query string as parsed by [url.ParseQuery]: the pairs in
    order; [ctx.Query(key)] returns the first value given for [key], or [""]. *)
Record Context := mkContext { query_params : list (string * string) }.

Fixpoint lookup_query (ps : list (string * string)) (key : string) : string :=
  match ps with
  | [] => ""
  | (k, v) :: rest => if String.eqb k key then v else lookup_query rest key
  end.

Definition Query (ctx : Context) (key : string) : string :=
  lookup_query (query_params ctx) key.

(* ------------------------------------------------------------------ *)
(** ** pagination.go *)

Module PaginationRequest.
Record t := mk {
  Page : Z;
  PerPage : Z;
  Search : string;
  Sort : string;
  Order : string;
  IsDisabled : bool
}.
End PaginationRequest.

Module PaginationResponse.
Record t := mk {
  Page : Z;
  PerPage : Z;
  MaxPage : Z;
  Total : Z;
  IsDisabled : bool
}.
(** The zero value [PaginationResponse{}]. *)
Definition zero : t := mk 0 0 0 0 false.
End PaginationResponse.

Module PaginatedResponse.
Record t (A : Type) := mk {
  Code : Z;
  Status : string;
  Message : string;
  (** [interface{}] holding the rows, or [nil] ([None]). *)
  Data : option (list A);
  Pagination : PaginationResponse.t
}.
Arguments mk {A}.
Arguments Code {A}.
Arguments Status {A}.
Arguments Message {A}.
Arguments Data {A}.
Arguments Pagination {A}.
End PaginatedResponse.

Import PaginationRequest.

(** [func (p *PaginationRequest) Validate()]: the receiver after the call. *)
Definition Validate (p : PaginationRequest.t) : PaginationRequest.t :=
  let page := if Page p <=? 0 then 1 else Page p in
  let perPage := if PerPage p <=? 0 then 10 else PerPage p in
  let order := if String.eqb (Order p) "" then "asc"%string else Order p in
  let order :=
    if negb (String.eqb order "asc") && negb (String.eqb order "desc")
    then "asc"%string else order in
  PaginationRequest.mk page perPage (Search p) (Sort p) order (IsDisabled p).

(** [func BindPagination(ctx *gin.Context) PaginationRequest]. *)
Definition BindPagination (ctx : Context) : PaginationRequest.t :=
  let page :=
    let pageStr := Query ctx "page" in
    if negb (String.eqb pageStr "") then
      match GoStr.Atoi pageStr with
      | Some v => if 0 <? v then v else 1
      | None => 1
      end
    else 1 in
  let perPage :=
    let perPageStr := Query ctx "per_page" in
    if negb (String.eqb perPageStr "") then
      match GoStr.Atoi perPageStr with
      | Some v => if (0 <? v) && (v <=? 100) then v else 10
      | None => 10
      end
    else 10 in
  let search := Query ctx "search" in
  let sort := Query ctx "sort" in
  let order :=
    let o := Query ctx "order" in
    if String.eqb o "desc" || String.eqb o "asc" then o else "asc"%string in
  let isDisabled :=
    let d := Query ctx "is_disabled" in
    if negb (String.eqb d "") then
      match GoStr.ToLower d with
      | "1" | "true" | "yes" | "y" | "on" => true
      | _ => false
      end%string
    else false in
  Validate (PaginationRequest.mk page perPage search sort order isDisabled).

Section Calculate.
Variable int64_indefinite : Z.

(** [func CalculatePagination(pagination PaginationRequest, totalCount int64)]. *)
Definition CalculatePagination (p : PaginationRequest.t) (totalCount : Z)
  : PaginationResponse.t :=
  if IsDisabled p then
    PaginationResponse.mk 1 totalCount 1 totalCount true
  else
    let maxPage :=
      GoFloat.to_int64 int64_indefinite
        (GoFloat.Ceil (GoFloat.div (GoFloat.of_int totalCount)
                                   (GoFloat.of_int (PerPage p)))) in
    let maxPage := if maxPage =? 0 then 1 else maxPage in
    PaginationResponse.mk (Page p) (PerPage p) maxPage totalCount false.
End Calculate.

(** [func NewPaginatedResponse(code, message, data, pagination)]. *)
Definition NewPaginatedResponse {A} (code : Z) (message : string)
  (data : option (list A)) (pagination : PaginationResponse.t)
  : PaginatedResponse.t A :=
  let status := if 400 <=? code then "error"%string else "success"%string in
  PaginatedResponse.mk code status message data pagination.

(* ------------------------------------------------------------------ *)
(** ** gorm query values *)

(** A bound argument of a [Where] clause. *)
Inductive Arg := ArgStr (s : string) | ArgInt (z : Z).

(** The part of a [*gorm.DB] statement the package builds: table, [Where]
    clauses (SQL text with [?] placeholders and their bound arguments, in
    call order), [Order], [Limit], [Offset] and [Preload]s. *)
Record DB := mkDB {
  db_table : string;
  db_wheres : list (string * list Arg);
  db_order : list string;
  db_limit : option Z;
  db_offset : option Z;
  db_preloads : list string
}.

Definition Table (q : DB) (name : string) : DB :=
  mkDB name (db_wheres q) (db_order q) (db_limit q) (db_offset q) (db_preloads q).
Definition Where (q : DB) (text : string) (args : list Arg) : DB :=
  mkDB (db_table q) (db_wheres q ++ [(text, args)]) (db_order q) (db_limit q)
    (db_offset q) (db_preloads q).
Definition OrderBy (q : DB) (o : string) : DB :=
  mkDB (db_table q) (db_wheres q) (db_order q ++ [o]) (db_limit q) (db_offset q)
    (db_preloads q).
Definition Limit (q : DB) (n : Z) : DB :=
  mkDB (db_table q) (db_wheres q) (db_order q) (Some n) (db_offset q) (db_preloads q).
Definition Offset (q : DB) (n : Z) : DB :=
  mkDB (db_table q) (db_wheres q) (db_order q) (db_limit q) (Some n) (db_preloads q).
Definition Preload (q : DB) (rel : string) : DB :=
  mkDB (db_table q) (db_wheres q) (db_order q) (db_limit q) (db_offset q)
    (db_preloads q ++ [rel]).

(* ------------------------------------------------------------------ *)
(** ** helpers.go: [CreateSearchableFilter] *)

(** Modelled from the spec: the [DatabaseDialect] enumeration (declared
    outside src/), with the four dialects the spec lists. *)
Inductive DatabaseDialect := MySQL | PostgreSQL | SQLite | SQLServer.

Definition dialect_eqb (a b : DatabaseDialect) : bool :=
  match a, b with
  | MySQL, MySQL | PostgreSQL, PostgreSQL | SQLite, SQLite
  | SQLServer, SQLServer => true
  | _, _ => false
  end.

(** [func CreateSearchableFilter(searchFields []string, dialect DatabaseDialect)]:
    the returned closure over a query and a search term. *)
Definition CreateSearchableFilter (searchFields : list string)
  (dialect : DatabaseDialect) : DB -> string -> DB :=
  fun query searchTerm =>
    if (length searchFields =? 0)%nat || String.eqb searchTerm "" then query
    else
      let searchPattern := ("%" ++ searchTerm ++ "%")%string in
      let operator :=
        if dialect_eqb dialect PostgreSQL then "ILIKE"%string else "LIKE"%string in
      match searchFields with
      | [f] => Where query (f ++ " " ++ operator ++ " ?")%string [ArgStr searchPattern]
      | _ =>
          let conditions :=
            map (fun field => (field ++ " " ++ operator ++ " ?")%string) searchFields in
          let args := map (fun _ => ArgStr searchPattern) searchFields in
          let whereClause := ("(" ++ GoStr.Join conditions " OR " ++ ")")%string in
          Where query whereClause args
      end.

(* ------------------------------------------------------------------ *)
(** ** Includes: [GetAllowedIncludes], [Validate], [isValidInclude] *)

Definition is_include_char (c : ascii) : bool :=
  let n := nat_of_ascii c in
  ((97 <=? n)%nat && (n <=? 122)%nat) || ((65 <=? n)%nat && (n <=? 90)%nat)
  || ((48 <=? n)%nat && (n <=? 57)%nat) || (n =? 95)%nat || (n =? 46)%nat.

Fixpoint all_include_chars (s : string) : bool :=
  match s with
  | EmptyString => true
  | String c s' => is_include_char c && all_include_chars s'
  end.

(** [isValidInclude]: [regexp.MatchString(`^[a-zA-Z0-9_.]+$`, include)]. *)
Definition isValidInclude (include : string) : bool :=
  negb (String.eqb include "") && all_include_chars include.

(** A Go [map[string]bool]; indexing a missing key yields [false]. *)
Definition map_index (m : gmap string bool) (k : string) : bool :=
  match m !! k with Some b => b | None => false end.

(** [func (f *SecureUserFilter) Validate()] (README), for the filter's
    [GetAllowedIncludes()] map: the new [f.Includes]. *)
Definition ValidateIncludesSecure (allowedIncludes : gmap string bool)
  (includes : list string) : list string :=
  fold_left
    (fun validIncludes include =>
       if map_index allowedIncludes include then
         if isValidInclude include then validIncludes ++ [include]
         else validIncludes
       else validIncludes)
    includes [].

(** [Validate()] of [ProvinceFilter], [AthleteFilter], [SportFilter] and
    [EventFilter]: the allow-list check only. *)
Definition ValidateIncludesPlain (allowedIncludes : gmap string bool)
  (includes : list string) : list string :=
  fold_left
    (fun validIncludes include =>
       if map_index allowedIncludes include then validIncludes ++ [include]
       else validIncludes)
    includes [].

Definition ProvinceAllowedIncludes : gmap string bool :=
  list_to_map [("Athletes", true)].
Definition AthleteAllowedIncludes : gmap string bool :=
  list_to_map [("Province", true); ("Sport", true); ("PlayersEvents", true)].
Definition SportAllowedIncludes : gmap string bool :=
  list_to_map [("Athletes", true); ("Events", true)].
Definition EventAllowedIncludes : gmap string bool :=
  list_to_map [("Sport", true)].
Definition SecureUserAllowedIncludes : gmap string bool :=
  list_to_map [("Profile", true); ("Posts", true); ("PublicData", true);
               ("SensitiveData", false); ("PrivateNotes", false);
               ("AdminData", false)].

(** The include resolution as the spec words it: the requested names, in
    request order, that are keys of the allow-list with value [true] and pass
    [isValidInclude]. *)
Definition spec_resolve_includes (allowedIncludes : gmap string bool)
  (includes : list string) : list string :=
  filter (fun x => bool_decide (allowedIncludes !! x = Some true)
                   && isValidInclude x) includes.

(* ------------------------------------------------------------------ *)
(** ** The [Filterable] capability and the query executor *)

(** [func (p *PaginationRequest) GetOffset() int]. *)
Definition GetOffset (p : PaginationRequest.t) : Z :=
  let page := if Page p <=? 0 then 1 else Page p in
  (page - 1) * PerPage p.

(** [func (p *PaginationRequest) GetLimit() int]. *)
Definition GetLimit (p : PaginationRequest.t) : Z :=
  if PerPage p <=? 0 then 10 else PerPage p.

(** A filter value of state type [σ] seen through the [Filterable] interface,
    with the optional methods the helpers find by type assertion
    ([BindPagination] on a gin context, and [Validate()]) and the
    [ctx.ShouldBindQuery(filter)] binding gin derives from its form tags. *)
Record Filterable (σ : Type) := mkFilterable {
  ApplyFilters : σ -> DB -> DB;
  GetSearchFields : σ -> list string;
  GetTableName : σ -> string;
  GetDefaultSort : σ -> string;
  GetPagination : σ -> PaginationRequest.t;
  GetIncludes : σ -> list string;
  BindPaginationMethod : option (Context -> σ -> σ);
  ValidateMethod : option (σ -> σ);
  ShouldBindQuery : Context -> σ -> string + σ
}.
Arguments ApplyFilters {σ}.
Arguments GetSearchFields {σ}.
Arguments GetTableName {σ}.
Arguments GetDefaultSort {σ}.
Arguments GetPagination {σ}.
Arguments GetIncludes {σ}.
Arguments BindPaginationMethod {σ}.
Arguments ValidateMethod {σ}.
Arguments ShouldBindQuery {σ}.

(** The relational store, reached through parameterized queries: a count of
    the rows a statement selects, and the rows it fetches; either may fail
    with an error message. *)
Record Store (T : Type) := mkStore {
  Count : DB -> string + Z;
  Find : DB -> string + list T
}.
Arguments Count {T}.
Arguments Find {T}.

Definition is_sort_head (c : ascii) : bool :=
  let n := nat_of_ascii c in
  ((97 <=? n)%nat && (n <=? 122)%nat) || ((65 <=? n)%nat && (n <=? 90)%nat)
  || (n =? 95)%nat.

(** Modelled from the spec: [isValidSortField] (not in src/), the pattern
    [^[a-zA-Z_][a-zA-Z0-9_.]*$]. *)
Definition isValidSortField (name : string) : bool :=
  match name with
  | EmptyString => false
  | String c rest => is_sort_head c && all_include_chars rest
  end.

Section Executor.
Context {σ T : Type}.
Variable F : Filterable σ.
(** The dialect the package is configured with. *)
Variable dialect : DatabaseDialect.

(** Modelled from the spec: the statement [PaginatedQuery] (not in src/)
    counts, after normalizing the request, applying the filter's predicates
    and the search clause. *)
Definition count_query (db : DB) (s : σ) (pagination : PaginationRequest.t) : DB :=
  let p := Validate pagination in
  let q := Table db (GetTableName F s) in
  let q := ApplyFilters F s q in
  CreateSearchableFilter (GetSearchFields F s) dialect q (Search p).

(** Modelled from the spec: the statement [PaginatedQuery] fetches: the
    counted statement with sort, page bounds (none when paging is disabled)
    and preloads. *)
Definition fetch_query (db : DB) (s : σ) (pagination : PaginationRequest.t)
  (includes : list string) : DB :=
  let p := Validate pagination in
  let q := count_query db s pagination in
  let sort :=
    if isValidSortField (Sort p) then (Sort p ++ " " ++ Order p)%string
    else GetDefaultSort F s in
  let q := OrderBy q sort in
  let q := if IsDisabled p then q else Offset (Limit q (GetLimit p)) (GetOffset p) in
  fold_left Preload includes q.

(** Modelled from the spec: [PaginatedQuery[T](db, filter, pagination,
    includes) ([]T, int64, error)]: count, then fetch; a store error at
    either step aborts with that error and no rows. *)
Definition PaginatedQuery (store : Store T) (db : DB) (s : σ)
  (pagination : PaginationRequest.t) (includes : list string)
  : list T * Z * option string :=
  match Count store (count_query db s pagination) with
  | inl err => ([], 0, Some err)
  | inr total =>
      match Find store (fetch_query db s pagination includes) with
      | inl err => ([], 0, Some err)
      | inr rows => (rows, total, None)
      end
  end.

End Executor.

(* ------------------------------------------------------------------ *)
(** ** helpers.go *)

Section Helpers.
Context {T : Type}.
Variable int64_indefinite : Z.
Variable dialect : DatabaseDialect.
(** [NewSimpleQueryBuilder(tableName).WithSearchFields(searchFields...)]
    followed by [.WithFilters(filterFuncs...)] (the builder is not in src/). *)
Variable SimpleQueryBuilder : string -> list string -> list (DB -> DB) -> Filterable unit.

Definition internal_error (err : string) : string :=
  ("Internal Server Error: " ++ err)%string.

(** [func PaginateWithCustomFilter[T](db, ctx, filter)]. *)
Definition PaginateWithCustomFilter {σ} (store : Store T) (db : DB) (ctx : Context)
  (F : Filterable σ) (s : σ) : list T * PaginationResponse.t * option string :=
  let s := match BindPaginationMethod F with Some bind => bind ctx s | None => s end in
  match ShouldBindQuery F ctx s with
  | inl err => ([], PaginationResponse.zero, Some err)
  | inr s =>
      match PaginatedQuery F dialect store db s (GetPagination F s) (GetIncludes F s) with
      | (_, _, Some err) => ([], PaginationResponse.zero, Some err)
      | (data, total, None) =>
          (data, CalculatePagination int64_indefinite (GetPagination F s) total, None)
      end
  end.

(** [func PaginatedAPIResponseWithCustomFilter[T](db, ctx, filter, message)]. *)
Definition PaginatedAPIResponseWithCustomFilter {σ} (store : Store T) (db : DB)
  (ctx : Context) (F : Filterable σ) (s : σ) (message : string)
  : PaginatedResponse.t T :=
  match PaginateWithCustomFilter store db ctx F s with
  | (_, _, Some err) =>
      NewPaginatedResponse 500 (internal_error err) None PaginationResponse.zero
  | (data, paginationResponse, None) =>
      NewPaginatedResponse 200 message (Some data) paginationResponse
  end.

(** The shape shared by [PaginateModel], [PaginateWithIncludes],
    [PaginateWithFilter] and [QuickPaginate]: bind the pagination, query
    through a simple builder, compute the metadata. *)
Definition paginate_simple (store : Store T) (db : DB) (ctx : Context)
  (builder : Filterable unit) (includes : list string)
  : list T * PaginationResponse.t * option string :=
  let pagination := BindPagination ctx in
  match PaginatedQuery builder dialect store db tt pagination includes with
  | (_, _, Some err) => ([], PaginationResponse.zero, Some err)
  | (data, total, None) =>
      (data, CalculatePagination int64_indefinite pagination total, None)
  end.

(** [func PaginateModel[T](db, ctx, tableName, searchFields)]. *)
Definition PaginateModel (store : Store T) (db : DB) (ctx : Context)
  (tableName : string) (searchFields : list string) :=
  paginate_simple store db ctx (SimpleQueryBuilder tableName searchFields []) [].

(** [func PaginateWithIncludes[T](db, ctx, tableName, searchFields, includes)]. *)
Definition PaginateWithIncludes (store : Store T) (db : DB) (ctx : Context)
  (tableName : string) (searchFields includes : list string) :=
  paginate_simple store db ctx (SimpleQueryBuilder tableName searchFields []) includes.

(** [func PaginateWithFilter[T](db, ctx, tableName, searchFields, filterFunc)]. *)
Definition PaginateWithFilter (store : Store T) (db : DB) (ctx : Context)
  (tableName : string) (searchFields : list string) (filterFunc : DB -> DB) :=
  paginate_simple store db ctx (SimpleQueryBuilder tableName searchFields [filterFunc]) [].

(** [func QuickPaginate[T](db, ctx, tableName)]. *)
Definition QuickPaginate (store : Store T) (db : DB) (ctx : Context)
  (tableName : string) :=
  paginate_simple store db ctx (SimpleQueryBuilder tableName [] []) [].

Definition api_response (message : string)
  (r : list T * PaginationResponse.t * option string) : PaginatedResponse.t T :=
  match r with
  | (_, _, Some err) =>
      NewPaginatedResponse 500 (internal_error err) None PaginationResponse.zero
  | (data, paginationResponse, None) =>
      NewPaginatedResponse 200 message (Some data) paginationResponse
  end.

(** [func PaginatedAPIResponse[T](db, ctx, tableName, searchFields, message)]. *)
Definition PaginatedAPIResponse (store : Store T) (db : DB) (ctx : Context)
  (tableName : string) (searchFields : list string) (message : string) :=
  api_response message (PaginateModel store db ctx tableName searchFields).

(** [func PaginatedAPIResponseWithIncludes[T](db, ctx, tableName, searchFields,
    includes, message)]. *)
Definition PaginatedAPIResponseWithIncludes (store : Store T) (db : DB)
  (ctx : Context) (tableName : string) (searchFields includes : list string)
  (message : string) :=
  api_response message (PaginateWithIncludes store db ctx tableName searchFields includes).

(** [func PaginatedQueryWithQueryLayer[T](filter, queryFunc)]: the filter
    state after [Validate()] and the query layer's result. *)
Definition PaginatedQueryWithQueryLayer {σ} (F : Filterable σ) (s : σ)
  (queryFunc : σ -> list T * Z * option string) : σ * (list T * Z * option string) :=
  let s := match ValidateMethod F with Some v => v s | None => s end in
  (s, queryFunc s).

(** [func PaginatedAPIResponseWithQueryLayer[T](ctx, filter, message, queryFunc)]. *)
Definition PaginatedAPIResponseWithQueryLayer {σ} (ctx : Context) (F : Filterable σ)
  (s : σ) (message : string) (queryFunc : σ -> list T * Z * option string)
  : PaginatedResponse.t T :=
  let s := match BindPaginationMethod F with Some bind => bind ctx s | None => s end in
  match ShouldBindQuery F ctx s with
  | inl err =>
      NewPaginatedResponse 400 ("Invalid query parameters: " ++ err)%string None
        PaginationResponse.zero
  | inr s =>
      match PaginatedQueryWithQueryLayer F s queryFunc with
      | (_, (_, _, Some err)) =>
          NewPaginatedResponse 500 (internal_error err) None PaginationResponse.zero
      | (s, (data, total, None)) =>
          NewPaginatedResponse 200 message (Some data)
            (CalculatePagination int64_indefinite (GetPagination F s) total)
      end
  end.

End Helpers.

(* ------------------------------------------------------------------ *)
(** ** [ProvinceFilter] (example) *)

(** [strings.Split(s, ",")]. *)
Fixpoint split_comma_aux (s : string) (cur : string) : list string :=
  match s with
  | EmptyString => [cur]
  | String c rest =>
      if Ascii.eqb c ","%char then cur :: split_comma_aux rest ""
      else split_comma_aux rest (cur ++ String c "")
  end.

Record ProvinceFilter := mkProvinceFilter {
  (** [pagination.BaseFilter] *)
  pf_Pagination : PaginationRequest.t;
  pf_Includes : list string;
  (** the filter's own fields *)
  pf_ID : Z;
  pf_Name : string;
  pf_Code : string
}.

(** Modelled from the spec: [BaseFilter.BindPagination(ctx)] (not in src/):
    the pagination fields bound by [BindPagination], and [includes] read as
    a comma-separated list ([] when absent). *)
Definition BaseFilterBindPagination (ctx : Context) (f : ProvinceFilter) : ProvinceFilter :=
  let inc := Query ctx "includes" in
  mkProvinceFilter (BindPagination ctx)
    (if String.eqb inc "" then [] else split_comma_aux inc "")
    (pf_ID f) (pf_Name f) (pf_Code f).

Fixpoint query_has (ps : list (string * string)) (key : string) : bool :=
  match ps with
  | [] => false
  | (k, _) :: rest => String.eqb k key || query_has rest key
  end.

(** [strconv.ParseInt(s, 10, 64)], the parser gin's form binding uses for an
    [int] field: its three outcomes. *)
Module GoStrconv.

Inductive outcome := ParsedOK (v : Z) | SyntaxError | RangeError.

Definition maxUint64 : Z := 2 ^ 64 - 1.

(** [maxUint64/10 + 1], [ParseUint]'s [cutoff] for base 10. *)
Definition cutoff : Z := 1844674407370955162.

(** The digit loop of [strconv.ParseUint(s, 10, 64)] from the accumulator
    [n]: a non-digit is a syntax error, and the first digit that takes the
    value past [maxUint64] a range error (whatever follows it). *)
Fixpoint parse_uint_digits (s : string) (n : Z) : outcome :=
  match s with
  | EmptyString => ParsedOK n
  | String c rest =>
      if GoStr.is_digit c then
        if cutoff <=? n then RangeError
        else
          let n1 := n * 10 + Z.of_nat (nat_of_ascii c - 48) in
          if maxUint64 <? n1 then RangeError else parse_uint_digits rest n1
      else SyntaxError
  end.

(** [strconv.ParseUint(s, 10, 64)]. *)
Definition ParseUint (s : string) : outcome :=
  match s with
  | EmptyString => SyntaxError
  | _ => parse_uint_digits s 0
  end.

(** [strconv.ParseInt(s, 10, 64)]: an optional sign, then [ParseUint] on the
    rest, then the [int64] range check. *)
Definition ParseInt (s : string) : outcome :=
  match s with
  | EmptyString => SyntaxError
  | String c rest =>
      let '(neg, body) :=
        if Ascii.eqb c "+"%char then (false, rest)
        else if Ascii.eqb c "-"%char then (true, rest)
        else (false, s) in
      match ParseUint body with
      | SyntaxError => SyntaxError
      | RangeError => RangeError
      | ParsedOK un =>
          if negb neg && (2 ^ 63 <=? un) then RangeError
          else if neg && (2 ^ 63 <? un) then RangeError
          else ParsedOK (if neg then - un else un)
      end
  end.

End GoStrconv.

(** [strconv.Quote(s)] for a string [s] of printable ASCII characters other
    than the double quote and the backslash: [s] between double quotes. *)
Definition quote_plain (s : string) : string :=
  String "034"%char (s ++ String "034"%char EmptyString).

Section ProvinceBinding.

(** [strconv.Quote], with which [strconv.NumError] prints the value it failed
    on (escapes for non-printable runes included); a parameter of the model. *)
Variable Quote : string -> string.

(** gin's form binding of an [int] field ([setIntField]): an empty value is
    read as ["0"], then [strconv.ParseInt(val, 10, 64)]; its error reads
    [strconv.ParseInt: parsing <Quote(val)>: invalid syntax] or
    [...: value out of range]. *)
Definition bind_int (val : string) : string + Z :=
  let val := if String.eqb val "" then "0"%string else val in
  match GoStrconv.ParseInt val with
  | GoStrconv.ParsedOK v => inr v
  | GoStrconv.SyntaxError =>
      inl ("strconv.ParseInt: parsing " ++ Quote val ++ ": invalid syntax")%string
  | GoStrconv.RangeError =>
      inl ("strconv.ParseInt: parsing " ++ Quote val ++ ": value out of range")%string
  end.

(** [ctx.ShouldBindQuery(filter)] on the fields [ProvinceFilter] declares
    ([id], [name], [code]): gin reads the first value of a key, and a key
    absent from the query leaves the field as is.
    Modelled from the spec: the embedded [BaseFilter] (not in src/)
    contributes no form field here; its pagination fields and includes are
    the ones [BaseFilter.BindPagination] binds, which the spec says fail
    closed to defaults. *)
Definition ProvinceShouldBindQuery (ctx : Context) (f : ProvinceFilter)
  : string + ProvinceFilter :=
  let ps := query_params ctx in
  let id :=
    if query_has ps "id" then bind_int (Query ctx "id") else inr (pf_ID f) in
  match id with
  | inl err => inl err
  | inr id =>
      let name := if query_has ps "name" then Query ctx "name" else pf_Name f in
      let code := if query_has ps "code" then Query ctx "code" else pf_Code f in
      inr (mkProvinceFilter (pf_Pagination f) (pf_Includes f) id name code)
  end.

(** [func (f *ProvinceFilter) ApplyFilters(query *gorm.DB) *gorm.DB]. *)
Definition ProvinceApplyFilters (f : ProvinceFilter) (query : DB) : DB :=
  let query := if 0 <? pf_ID f then Where query "id = ?" [ArgInt (pf_ID f)] else query in
  let query :=
    if negb (String.eqb (pf_Name f) "") then
      Where query "name LIKE ?" [ArgStr ("%" ++ pf_Name f ++ "%")%string]
    else query in
  if negb (String.eqb (pf_Code f) "") then Where query "code = ?" [ArgStr (pf_Code f)]
  else query.

Definition ProvinceFilterable : Filterable ProvinceFilter :=
  {| ApplyFilters := ProvinceApplyFilters;
     GetSearchFields := fun _ => ["name"; "code"]%string;
     GetTableName := fun _ => "provinces"%string;
     GetDefaultSort := fun _ => "id asc"%string;
     GetPagination := pf_Pagination;
     GetIncludes := pf_Includes;
     BindPaginationMethod := Some BaseFilterBindPagination;
     ValidateMethod := Some (fun f =>
       mkProvinceFilter (pf_Pagination f)
         (ValidateIncludesPlain ProvinceAllowedIncludes (pf_Includes f))
         (pf_ID f) (pf_Name f) (pf_Code f));
     ShouldBindQuery := ProvinceShouldBindQuery |}.

End ProvinceBinding.

(** [&ProvinceFilter{}]. *)
Definition EmptyProvinceFilter : ProvinceFilter :=
  mkProvinceFilter (PaginationRequest.mk 0 0 "" "" "" false) [] 0 "" "".

(* ------------------------------------------------------------------ *)
(** ** [GetOffset] and [GetLimit] as methods *)

(** Go [int] arithmetic on a 64-bit platform: the result modulo [2^64], read
    back as a signed value. *)
Definition wrap64 (z : Z) : Z := (z + 2 ^ 63) mod 2 ^ 64 - 2 ^ 63.

(** [func (p *PaginationRequest) GetOffset() int], with its effect on the
    receiver: the returned offset ([int] multiplication wraps) and the
    receiver after the call ([Page] set to 1 when it was [<= 0]). *)
Definition GetOffsetMethod (p : PaginationRequest.t) : Z * PaginationRequest.t :=
  let p :=
    if Page p <=? 0
    then PaginationRequest.mk 1 (PerPage p) (Search p) (Sort p) (Order p) (IsDisabled p)
    else p in
  (wrap64 ((Page p - 1) * PerPage p), p).

(** [func (p *PaginationRequest) GetLimit() int], with its effect on the
    receiver ([PerPage] set to 10 when it was [<= 0]). *)
Definition GetLimitMethod (p : PaginationRequest.t) : Z * PaginationRequest.t :=
  let p :=
    if PerPage p <=? 0
    then PaginationRequest.mk (Page p) 10 (Search p) (Sort p) (Order p) (IsDisabled p)
    else p in
  (PerPage p, p).

(* ------------------------------------------------------------------ *)
(** ** helpers.go: [BindAndValidateFilter] *)

(** [func BindAndValidateFilter(ctx, filter) error]: the error, or the filter
    after binding and validation. *)
Definition BindAndValidateFilter {σ} (ctx : Context) (F : Filterable σ) (s : σ)
  : string + σ :=
  let s := match BindPaginationMethod F with Some bind => bind ctx s | None => s end in
  match ShouldBindQuery F ctx s with
  | inl err => inl err
  | inr s => inr (match ValidateMethod F with Some v => v s | None => s end)
  end.

(* ------------------------------------------------------------------ *)
(** ** [SportFilter] and [AthleteFilter] (examples) *)

Record SportFilter := mkSportFilter {
  sf_Pagination : PaginationRequest.t;
  sf_Includes : list string;
  sf_ID : Z;
  sf_Name : string;
  sf_Category : string;
  sf_IsActive : bool
}.

(** [func (f *SportFilter) ApplyFilters(query *gorm.DB) *gorm.DB]. *)
Definition SportApplyFilters (f : SportFilter) (query : DB) : DB :=
  let query := if 0 <? sf_ID f then Where query "id = ?" [ArgInt (sf_ID f)] else query in
  let query :=
    if negb (String.eqb (sf_Name f) "") then
      Where query "name LIKE ?" [ArgStr ("%" ++ sf_Name f ++ "%")%string]
    else query in
  if negb (String.eqb (sf_Category f) "") then
    Where query "category = ?" [ArgStr (sf_Category f)]
  else query.

Record AthleteFilter := mkAthleteFilter {
  af_Pagination : PaginationRequest.t;
  af_Includes : list string;
  af_ID : Z;
  af_ProvinceID : Z;
  af_SportID : Z;
  af_EventID : Z
}.

(** [func (f *AthleteFilter) ApplyFilters(query *gorm.DB) *gorm.DB]; the
    [EventID > 0] branch is empty in the source. *)
Definition AthleteApplyFilters (f : AthleteFilter) (query : DB) : DB :=
  let query := if 0 <? af_ID f then Where query "id = ?" [ArgInt (af_ID f)] else query in
  let query :=
    if 0 <? af_ProvinceID f then Where query "province_id = ?" [ArgInt (af_ProvinceID f)]
    else query in
  let query :=
    if 0 <? af_SportID f then Where query "sport_id = ?" [ArgInt (af_SportID f)]
    else query in
  if 0 <? af_EventID f then query else query.

(* ------------------------------------------------------------------ *)
(** ** Statement shapes *)

(** The number of [?] placeholders in an SQL text. *)
Fixpoint count_placeholders (s : string) : nat :=
  match s with
  | EmptyString => 0
  | String c s' => (if Ascii.eqb c "?"%char then 1 else 0) + count_placeholders s'
  end.

(** [q'] is [q] with [Where] clauses appended, each with one of the SQL
    texts [texts] and exactly one bound argument; nothing else changed. *)
Definition only_appends_clauses (texts : list string) (q q' : DB) : Prop :=
  exists ws : list (string * list Arg),
    q' = mkDB (db_table q) (db_wheres q ++ ws) (db_order q) (db_limit q) (db_offset q)
           (db_preloads q) /\
    Forall (fun w => In (fst w) texts /\ length (snd w) = 1%nat) ws.

(** The two shapes of the envelopes the API helpers return: a [200]
    success carrying the caller's message and rows, and an error with one of
    the status codes [codes], [nil] data and zero pagination. *)
Definition success_envelope {A} (message : string) (r : PaginatedResponse.t A) : Prop :=
  PaginatedResponse.Code r = 200 /\ PaginatedResponse.Status r = "success"%string /\
  PaginatedResponse.Message r = message /\ PaginatedResponse.Data r <> None.

Definition error_envelope {A} (codes : list Z) (r : PaginatedResponse.t A) : Prop :=
  In (PaginatedResponse.Code r) codes /\ PaginatedResponse.Status r = "error"%string /\
  PaginatedResponse.Data r = None /\ PaginatedResponse.Pagination r = PaginationResponse.zero.

(* ================================================================== *)
(** * Facts about binary64 rounding *)

Module FloatFacts.

Lemma digits2_pos_size (p : positive) : digits2_pos p = Pos.size p.
Proof. induction p; simpl; congruence. Qed.

Lemma size_log2 (p : positive) : Zpos (Pos.size p) = Z.log2 (Zpos p) + 1.
Proof. destruct p; simpl; try reflexivity; rewrite Pos2Z.inj_succ; reflexivity. Qed.

Lemma digits2_bounds (p : positive) :
  2 ^ (Zpos (digits2_pos p) - 1) <= Zpos p < 2 ^ Zpos (digits2_pos p).
Proof.
  rewrite digits2_pos_size, size_log2.
  replace (Z.log2 (Zpos p) + 1 - 1) with (Z.log2 (Zpos p)) by lia.
  rewrite Z.add_1_r. apply Z.log2_spec. lia.
Qed.

Lemma digits2_eq (p : positive) (k : Z) :
  1 <= k -> 2 ^ (k - 1) <= Zpos p < 2 ^ k -> Zpos (digits2_pos p) = k.
Proof.
  intros Hk Hb. rewrite digits2_pos_size, size_log2.
  rewrite (Z.log2_unique (Zpos p) (k - 1)); [lia | lia |].
  replace (Z.succ (k - 1)) with k by lia. exact Hb.
Qed.

(** The invariant of a shifted record: [shr_m] is the integer part of
    [N / T], [shr_r] says the fractional part is at least one half and
    [shr_s] that it is neither zero nor exactly one half. *)
Definition shr_inv (r : shr_record) (N T : Z) : Prop :=
  0 <= shr_m r /\ shr_m r * T <= N < (shr_m r + 1) * T /\
  (shr_r r = true <-> T <= 2 * (N - shr_m r * T)) /\
  (shr_s r = true <-> N - shr_m r * T <> 0 /\ 2 * (N - shr_m r * T) <> T).

Lemma shr_1_nonneg (m : Z) (r s : bool) :
  0 <= m ->
  shr_1 (Build_shr_record m r s) = Build_shr_record (m / 2) (Z.odd m) (r || s).
Proof.
  intros Hm. destruct m as [|p|p]; [reflexivity| |lia].
  destruct p as [p|p|]; simpl.
  - f_equal. apply Z.div_unique with 1; [lia|]. rewrite Pos2Z.inj_xI. ring.
  - f_equal. apply Z.div_unique with 0; [lia|]. rewrite Pos2Z.inj_xO. ring.
  - reflexivity.
Qed.

Lemma shr_1_inv (r : shr_record) (N T : Z) :
  0 < T -> shr_inv r N T -> shr_inv (shr_1 r) N (2 * T).
Proof.
  destruct r as [m rb sb]. intros HT Hinv.
  assert (Hm : 0 <= m) by (apply Hinv).
  rewrite shr_1_nonneg by exact Hm.
  unfold shr_inv in *; cbn [shr_m shr_r shr_s] in *.
  destruct Hinv as (_ & Hb & Hr & Hs).
  pose proof (Z.div_mod m 2 ltac:(lia)) as Hdm.
  pose proof (Z.mod_pos_bound m 2 ltac:(lia)) as Hmb.
  rewrite Zodd_mod.
  assert (Hq : 0 <= m / 2) by (apply Z.div_pos; lia).
  remember (m / 2) as q eqn:Eq. clear Eq.
  assert (Hsplit : T <= 2 * (N - m * T) \/ 2 * (N - m * T) < T) by lia.
  destruct (Z.eq_dec (m mod 2) 1) as [H1|H1].
  - rewrite H1, Z.eqb_refl. rewrite H1 in Hdm. subst m.
    split; [lia|]. split; [nia|]. split.
    + split; intros _; [nia | reflexivity].
    + rewrite orb_true_iff, Hr, Hs. split.
      * intros [Hx|[Hx1 Hx2]]; nia.
      * intros [Hx1 Hx2]. destruct Hsplit; [left; lia | right; split; nia].
  - assert (H0 : m mod 2 = 0) by lia. rewrite H0. cbn [Z.eqb]. rewrite H0 in Hdm.
    subst m.
    split; [lia|]. split; [nia|]. split.
    + split; [discriminate | intros Hx; nia].
    + rewrite orb_true_iff, Hr, Hs. split.
      * intros [Hx|[Hx1 Hx2]]; nia.
      * intros [Hx1 Hx2]. destruct Hsplit; [left; lia | right; split; nia].
Qed.

Lemma pow2_pos (k : Z) : 0 <= k -> 0 < 2 ^ k.
Proof. intros; apply Z.pow_pos_nonneg; lia. Qed.

Lemma iter_pos_inv (N : Z) (p : positive) :
  forall r T, 0 < T -> shr_inv r N T ->
  shr_inv (SpecFloat.iter_pos shr_1 p r) N (2 ^ Zpos p * T).
Proof.
  induction p as [p IH|p IH|]; intros r T HT H; simpl.
  - assert (Hp := pow2_pos (Zpos p) ltac:(lia)).
    replace (2 ^ Zpos p~1 * T) with (2 ^ Zpos p * (2 ^ Zpos p * (2 * T))).
    + apply IH; [nia|]. apply IH; [lia|]. apply shr_1_inv; assumption.
    + rewrite (Pos2Z.inj_xI p).
      replace (2 * Zpos p + 1) with (Zpos p + Zpos p + 1) by lia.
      rewrite !Z.pow_add_r by lia. ring.
  - assert (Hp := pow2_pos (Zpos p) ltac:(lia)).
    replace (2 ^ Zpos p~0 * T) with (2 ^ Zpos p * (2 ^ Zpos p * T)).
    + apply IH; [nia|]. apply IH; assumption.
    + rewrite (Pos2Z.inj_xO p).
      replace (2 * Zpos p) with (Zpos p + Zpos p) by lia.
      rewrite !Z.pow_add_r by lia. ring.
  - replace (2 ^ 1 * T) with (2 * T) by ring. apply shr_1_inv; assumption.
Qed.

Lemma shr_spec (r : shr_record) (N T e n : Z) :
  0 < T -> 0 <= n -> shr_inv r N T ->
  shr_inv (fst (shr r e n)) N (2 ^ n * T) /\ snd (shr r e n) = e + n.
Proof.
  intros HT Hn H. destruct n as [|p|p]; simpl.
  - split; [|lia]. replace (2 ^ 0 * T) with T by ring. exact H.
  - split; [apply iter_pos_inv|]; auto.
  - lia.
Qed.

Lemma shr_m_of_loc (m : Z) (l : location) : shr_m (shr_record_of_loc m l) = m.
Proof. destruct l as [|[| |]]; reflexivity. Qed.

Ltac solve_inv :=
  unfold shr_inv; cbn [shr_record_of_loc shr_m shr_r shr_s];
  repeat split; intros; first [reflexivity | discriminate | nia | exfalso; nia].

Lemma loc_inv (q M r : Z) :
  0 <= q -> 0 <= r < M ->
  shr_inv (shr_record_of_loc q (new_location M r)) (q * M + r) M.
Proof.
  intros Hq Hr. unfold new_location.
  destruct (Z.even M) eqn:Ev.
  - unfold new_location_even.
    destruct (Z.eqb_spec r 0) as [->|Hr0]; [solve_inv|].
    destruct (Z.compare_spec (2 * r) M); cbn [shr_record_of_loc]; solve_inv.
  - assert (Hodd : M mod 2 = 1).
    { assert (Z.odd M = true) by (rewrite <- Z.negb_even, Ev; reflexivity).
      rewrite Zodd_mod in H. apply Z.eqb_eq. exact H. }
    pose proof (Z.div_mod M 2 ltac:(lia)) as HM. rewrite Hodd in HM.
    unfold new_location_odd.
    destruct (Z.eqb_spec r 0) as [->|Hr0]; [solve_inv|].
    destruct (Z.compare_spec (2 * r + 1) M); cbn [shr_record_of_loc]; solve_inv.
Qed.

Lemma round_inv (r : shr_record) (N T : Z) :
  0 < T -> shr_inv r N T ->
  shr_m r <= round_nearest_even (shr_m r) (loc_of_shr_record r) <= shr_m r + 1 /\
  - T <= 2 * round_nearest_even (shr_m r) (loc_of_shr_record r) * T - 2 * N <= T.
Proof.
  destruct r as [m [|] [|]]; unfold shr_inv; cbn [shr_m shr_r shr_s];
    intros HT (Hm & Hb & Hr & Hs); cbn [loc_of_shr_record round_nearest_even].
  - assert (T < 2 * (N - m * T)).
    { assert (T <= 2 * (N - m * T)) by (apply Hr; reflexivity).
      destruct (proj1 Hs eq_refl). lia. }
    split; nia.
  - assert (T = 2 * (N - m * T)).
    { assert (T <= 2 * (N - m * T)) by (apply Hr; reflexivity).
      assert (~ (N - m * T <> 0 /\ 2 * (N - m * T) <> T))
        by (intros Hc; apply Hs in Hc; discriminate).
      nia. }
    destruct (Z.even m); split; nia.
  - assert (2 * (N - m * T) < T).
    { destruct (Z.le_gt_cases T (2 * (N - m * T))) as [Hc|Hc]; [|lia].
      apply Hr in Hc; discriminate. }
    assert (N - m * T <> 0) by (apply Hs; reflexivity).
    split; nia.
  - assert (N - m * T = 0).
    { destruct (Z.eq_dec (N - m * T) 0) as [|Hc]; [assumption|].
      assert (2 * (N - m * T) < T).
      { destruct (Z.le_gt_cases T (2 * (N - m * T))) as [Hc'|Hc']; [|lia].
        apply Hr in Hc'; discriminate. }
      assert (Hx : false = true) by (apply Hs; split; lia). discriminate. }
    split; nia.
Qed.

Lemma fexp_normal (k : Z) :
  -1074 <= k - 53 -> fexp GoFloat.prec GoFloat.emax k = k - 53.
Proof.
  intros H. unfold fexp, emin, GoFloat.prec, GoFloat.emax. lia.
Qed.

Lemma Zdigits2_pos_eq (q : positive) (k : Z) :
  1 <= k -> 2 ^ (k - 1) <= Zpos q < 2 ^ k -> Zdigits2 (Zpos q) = k.
Proof. intros. simpl. apply digits2_eq; assumption. Qed.

Lemma div_bounds_from (a b X : Z) : 0 < X -> a * X < b * X -> a < b.
Proof. intros HX H. apply (Z.mul_lt_mono_pos_r X); assumption. Qed.

(** Rounding of a value [N / T * 2^e] whose integer part [q] has [53 + p]
    bits, in the normal range: the result is a finite float whose mantissa
    [m''] has 53 bits; before renormalization the rounded mantissa [m'] at
    exponent [e + p] is within half a unit of [N / (2^p T)]. *)
Lemma round_aux_spec (sx : bool) (q e : Z) (l : location) (N T p : Z) :
  0 < T -> 0 <= p -> 2 ^ (52 + p) <= q < 2 ^ (53 + p) ->
  -1074 <= e + p -> e + p + 1 <= 971 ->
  shr_inv (shr_record_of_loc q l) N T ->
  exists (m'' : positive) (E m' : Z),
    binary_round_aux GoFloat.prec GoFloat.emax sx q e l = S754_finite sx m'' E /\
    2 ^ 52 <= Zpos m'' < 2 ^ 53 /\ e + p <= E <= e + p + 1 /\
    Zpos m'' * 2 ^ (E - (e + p)) = m' /\
    - (2 ^ p * T) <= 2 * m' * (2 ^ p * T) - 2 * N <= 2 ^ p * T /\
    2 ^ 52 <= m' <= 2 ^ 53.
Proof.
  intros HT Hp Hq Hlo Hhi Hinv.
  assert (HP := pow2_pos p Hp).
  assert (E52 : 2 ^ (52 + p) = 2 ^ 52 * 2 ^ p) by (rewrite Z.pow_add_r; lia).
  assert (E53 : 2 ^ (53 + p) = 2 ^ 53 * 2 ^ p) by (rewrite Z.pow_add_r; lia).
  destruct q as [|qp|qp]; [lia| |lia].
  unfold binary_round_aux, shr_fexp at 1.
  rewrite (Zdigits2_pos_eq qp (53 + p)) by (replace (53 + p - 1) with (52 + p) by lia; lia).
  rewrite fexp_normal by lia.
  replace (53 + p + e - 53 - e) with p by lia.
  destruct (shr_spec (shr_record_of_loc (Zpos qp) l) N T e p HT Hp Hinv) as [Hi1 He1].
  destruct (shr (shr_record_of_loc (Zpos qp) l) e p) as [rec1 e1] eqn:Hs1.
  cbn [fst snd] in Hi1, He1. subst e1.
  assert (Hq0 := Hinv). unfold shr_inv in Hq0. rewrite shr_m_of_loc in Hq0.
  destruct Hq0 as (_ & Hq0 & _).
  assert (HPT : 0 < 2 ^ p * T) by nia.
  assert (Hm1 : 2 ^ 52 <= shr_m rec1 < 2 ^ 53).
  { destruct Hi1 as (_ & Hi1 & _). split.
    - assert (2 ^ 52 < shr_m rec1 + 1); [|lia].
      apply (div_bounds_from _ _ (2 ^ p * T)); [lia|]. nia.
    - apply (div_bounds_from _ _ (2 ^ p * T)); [lia|]. nia. }
  destruct (round_inv rec1 N (2 ^ p * T) HPT Hi1) as [Hr1 Hr2].
  set (m' := round_nearest_even (shr_m rec1) (loc_of_shr_record rec1)) in *.
  assert (Hm' : 2 ^ 52 <= m' <= 2 ^ 53) by lia.
  destruct m' as [|mp|mp] eqn:Em'; [lia| |lia].
  unfold shr_fexp.
  destruct (Z.eq_dec (Zpos mp) (2 ^ 53)) as [Htop|Htop].
  - rewrite Htop.
    replace (Zdigits2 (2 ^ 53)) with 54 by reflexivity.
    rewrite fexp_normal by lia.
    replace (54 + (e + p) - 53 - (e + p)) with 1 by lia.
    cbn -[Z.add Z.leb].
    replace (Z.leb (e + p + 1) (GoFloat.emax - GoFloat.prec)) with true
      by (symmetry; apply Z.leb_le; unfold GoFloat.emax, GoFloat.prec; lia).
    exists 4503599627370496%positive, (e + p + 1), (Zpos mp).
    split; [reflexivity|]. split; [lia|]. split; [lia|].
    split; [rewrite Htop; replace (e + p + 1 - (e + p)) with 1 by lia; reflexivity|].
    rewrite ?Em'. split; [exact Hr2 | exact Hm'].
  - assert (Zpos mp < 2 ^ 53) by lia.
    rewrite (Zdigits2_pos_eq mp 53) by lia.
    rewrite fexp_normal by lia.
    replace (53 + (e + p) - 53 - (e + p)) with 0 by lia.
    cbn -[Z.add Z.leb].
    replace (Z.leb (e + p) (GoFloat.emax - GoFloat.prec)) with true
      by (symmetry; apply Z.leb_le; unfold GoFloat.emax, GoFloat.prec; lia).
    exists mp, (e + p), (Zpos mp).
    split; [reflexivity|]. split; [lia|]. split; [lia|].
    split; [replace (e + p - (e + p)) with 0 by lia; ring|].
    rewrite ?Em'. split; [exact Hr2 | exact Hm'].
Qed.

Lemma iter_xO (a k : positive) : Zpos (Pos.iter xO a k) = Zpos a * 2 ^ Zpos k.
Proof.
  induction k as [|k IH] using Pos.peano_ind.
  - simpl. lia.
  - rewrite Pos.iter_succ, Pos2Z.inj_xO, IH, Pos2Z.inj_succ, Z.pow_succ_r by lia. ring.
Qed.

(** [binary_round sx a 0] for a positive integer [a] below [2^64]: a
    normalized finite float; exact when [a <= 2^53]. *)
Lemma round_int_spec (sx : bool) (a : positive) :
  Zpos a < 2 ^ 64 ->
  exists (m : positive) (E : Z),
    binary_round GoFloat.prec GoFloat.emax sx a 0 = S754_finite sx m E /\
    2 ^ 52 <= Zpos m < 2 ^ 53 /\ -52 <= E <= 12 /\
    (Zpos a <= 2 ^ 53 ->
       (0 <= E -> Zpos m * 2 ^ E = Zpos a) /\ (E < 0 -> Zpos m = Zpos a * 2 ^ (- E))) /\
    (2 ^ 53 < Zpos a -> 1 <= E).
Proof.
  intros Ha. unfold binary_round.
  pose proof (digits2_bounds a) as Hd.
  set (d := Zpos (digits2_pos a)) in *.
  assert (Hd1 : 1 <= d) by (unfold d; lia).
  assert (Hd64 : d <= 64).
  { destruct (Z.le_gt_cases d 64) as [|Hc]; [assumption|].
    assert (2 ^ 64 <= 2 ^ (d - 1)) by (apply Z.pow_le_mono_r; lia). lia. }
  rewrite Z.add_0_r. fold d.
  rewrite fexp_normal by lia.
  unfold shl_align. rewrite Z.sub_0_r.
  destruct (Z.lt_trichotomy d 53) as [Hlt|[Heq|Hgt]].
  - (* fewer than 53 bits: shifted left, rounding is exact *)
    destruct (d - 53) as [|k|k] eqn:Hk; try lia.
    assert (Hq : Zpos (Pos.iter xO a k) = Zpos a * 2 ^ (53 - d))
      by (rewrite iter_xO; f_equal; f_equal; lia).
    assert (Hb1 : 2 ^ 52 <= Zpos a * 2 ^ (53 - d)).
    { replace (2 ^ 52) with (2 ^ (d - 1) * 2 ^ (53 - d))
        by (rewrite <- Z.pow_add_r by lia; f_equal; lia).
      apply Z.mul_le_mono_nonneg_r; [|lia]. apply Z.pow_nonneg; lia. }
    assert (Hb2 : Zpos a * 2 ^ (53 - d) < 2 ^ 53).
    { replace (2 ^ 53) with (2 ^ d * 2 ^ (53 - d))
        by (rewrite <- Z.pow_add_r by lia; f_equal; lia).
      apply Z.mul_lt_mono_pos_r; [apply pow2_pos; lia | lia]. }
    destruct (round_aux_spec sx (Zpos (Pos.iter xO a k)) (Zneg k) loc_Exact
                (Zpos (Pos.iter xO a k)) 1 0) as (m & E & m' & Hr & Hm & HE & Hv & Hc & Hm');
      try lia.
    { unfold shr_inv; cbn [shr_record_of_loc shr_m shr_r shr_s].
      repeat split; intros; first [discriminate | lia | exfalso; lia]. }
    assert (m' = Zpos (Pos.iter xO a k)) by (rewrite Z.pow_0_r in Hc; lia).
    assert (E = Zneg k).
    { destruct (Z.eq_dec E (Zneg k)) as [|Hne]; [assumption|].
      assert (E = Zneg k + 0 + 1) by lia. subst E.
      replace (Zneg k + 0 + 1 - (Zneg k + 0)) with 1 in Hv by lia. lia. }
    subst E. exists m, (Zneg k). split; [exact Hr|]. split; [exact Hm|].
    split; [lia|]. split; [|lia]. split; [lia|].
    intros _. replace (- Zneg k) with (53 - d) by lia.
    replace (Zneg k - (Zneg k + 0)) with 0 in Hv by lia. lia.
  - (* exactly 53 bits *)
    replace (d - 53) with 0 by lia. rewrite Heq in Hd. cbn in Hd.
    destruct (round_aux_spec sx (Zpos a) 0 loc_Exact (Zpos a) 1 0)
      as (m & E & m' & Hr & Hm & HE & Hv & Hc & Hm'); try lia.
    { unfold shr_inv; cbn [shr_record_of_loc shr_m shr_r shr_s].
      repeat split; intros; first [discriminate | lia | exfalso; lia]. }
    assert (m' = Zpos a) by (rewrite Z.pow_0_r in Hc; lia).
    assert (E = 0).
    { destruct (Z.eq_dec E 0) as [|Hne]; [assumption|].
      assert (E = 1) by lia. subst E. simpl in Hv. lia. }
    subst E. exists m, 0. split; [exact Hr|]. split; [exact Hm|].
    split; [lia|]. split; [|lia]. split; [|lia].
    intros _. simpl in Hv. lia.
  - (* more than 53 bits: rounded at exponent d - 53 *)
    destruct (d - 53) as [|k|k] eqn:Hk; try lia.
    destruct (round_aux_spec sx (Zpos a) 0 loc_Exact (Zpos a) 1 (Zpos k))
      as (m & E & m' & Hr & Hm & HE & Hv & Hc & Hm'); try lia.
    { split.
      - replace (52 + Zpos k) with (d - 1) by lia. lia.
      - replace (53 + Zpos k) with d by lia. lia. }
    { unfold shr_inv; cbn [shr_record_of_loc shr_m shr_r shr_s].
      repeat split; intros; first [discriminate | lia | exfalso; lia]. }
    exists m, E. split; [exact Hr|]. split; [exact Hm|].
    split; [lia|]. split; [|lia].
    intros Hsmall.
    assert (Hd54 : d = 54).
    { assert (2 ^ (d - 1) <= 2 ^ 53) by lia.
      destruct (Z.le_gt_cases d 54) as [|Hc']; [lia|].
      assert (2 ^ 54 <= 2 ^ (d - 1)) by (apply Z.pow_le_mono_r; lia). lia. }
    assert (Zpos k = 1) by lia.
    rewrite H in *. rewrite Hd54 in Hd. cbn in Hd.
    assert (Zpos a = 2 ^ 53) by (cbn; lia).
    assert (m' = 2 ^ 52) by (simpl in Hc; lia).
    assert (E = 1).
    { destruct (Z.eq_dec E 1) as [|Hne]; [assumption|].
      assert (E = 2) by lia. subst E. simpl in Hv. lia. }
    subst E. split; [|lia]. intros _. simpl in Hv. lia.
Qed.

Lemma normalize_spec (z : Z) (sz : bool) :
  1 <= Z.abs z < 2 ^ 64 ->
  exists (m : positive) (E : Z),
    binary_normalize GoFloat.prec GoFloat.emax z 0 sz = S754_finite (z <? 0) m E /\
    2 ^ 52 <= Zpos m < 2 ^ 53 /\ -52 <= E <= 12 /\
    (Z.abs z <= 2 ^ 53 ->
       (0 <= E -> Zpos m * 2 ^ E = Z.abs z) /\ (E < 0 -> Zpos m = Z.abs z * 2 ^ (- E))) /\
    (2 ^ 53 < Z.abs z -> 1 <= E).
Proof.
  intros Hz. destruct z as [|a|a]; [simpl in Hz; lia| |]; simpl in *.
  - apply round_int_spec. lia.
  - apply round_int_spec. lia.
Qed.

(** Division of two positive normalized binary64 values. *)
Lemma div_spec (m1 m2 : positive) (e1 e2 : Z) :
  2 ^ 52 <= Zpos m1 < 2 ^ 53 -> 2 ^ 52 <= Zpos m2 < 2 ^ 53 ->
  -52 <= e1 <= 12 -> -52 <= e2 <= 12 ->
  exists (m'' : positive) (E m' p : Z),
    SFdiv GoFloat.prec GoFloat.emax (S754_finite false m1 e1) (S754_finite false m2 e2)
      = S754_finite false m'' E /\
    2 ^ 52 <= Zpos m'' < 2 ^ 53 /\ 0 <= p <= 1 /\
    e1 - e2 - 53 + p <= E <= e1 - e2 - 53 + p + 1 /\
    Zpos m'' * 2 ^ (E - (e1 - e2 - 53 + p)) = m' /\
    - (2 ^ p * Zpos m2) <= 2 * m' * (2 ^ p * Zpos m2) - 2 * (Zpos m1 * 2 ^ 53)
      <= 2 ^ p * Zpos m2 /\
    2 ^ 52 * (2 ^ p * Zpos m2) <= Zpos m1 * 2 ^ 53 /\
    2 ^ 52 <= m'.
Proof.
  intros H1 H2 He1 He2.
  unfold SFdiv, SFdiv_core_binary.
  rewrite (Zdigits2_pos_eq m1 53), (Zdigits2_pos_eq m2 53) by (cbn; lia).
  rewrite fexp_normal by lia.
  rewrite Z.min_l by lia.
  replace (e1 - e2 - (53 + e1 - (53 + e2) - 53)) with 53 by lia.
  rewrite Z.shiftl_mul_pow2 by lia.
  replace (53 + e1 - (53 + e2) - 53) with (e1 - e2 - 53) by lia.
  pose proof (Z_div_mod (Zpos m1 * 2 ^ 53) (Zpos m2) ltac:(lia)) as Hdm.
  destruct (Z.div_eucl (Zpos m1 * 2 ^ 53) (Zpos m2)) as [q r] eqn:Hdiv.
  destruct Hdm as [HN Hr].
  assert (Hq1 : 2 ^ 52 <= q).
  { destruct (Z.le_gt_cases (2 ^ 52) q) as [|Hc]; [assumption|]. nia. }
  assert (Hq2 : q < 2 ^ 54).
  { destruct (Z.le_gt_cases (2 ^ 54) q) as [Hc|]; [|assumption]. nia. }
  set (p := if q <? 2 ^ 53 then 0 else 1).
  assert (Hp : 0 <= p <= 1 /\ 2 ^ (52 + p) <= q < 2 ^ (53 + p)).
  { unfold p. destruct (Z.ltb_spec q (2 ^ 53)); cbn; lia. }
  destruct Hp as [Hp Hqp].
  destruct (round_aux_spec (xorb false false) q (e1 - e2 - 53) (new_location (Zpos m2) r)
              (Zpos m1 * 2 ^ 53) (Zpos m2) p)
    as (m & E & m' & Hres & Hm & HE & Hv & Hc & Hm'); try lia.
  { rewrite HN. replace (Zpos m2 * q + r) with (q * Zpos m2 + r) by ring.
    apply loc_inv; lia. }
  exists m, E, m', p. rewrite Hres.
  split; [reflexivity|]. split; [exact Hm|]. split; [exact Hp|].
  split; [lia|]. split; [exact Hv|]. split; [exact Hc|].
  split; [|lia].
  assert (2 ^ (52 + p) = 2 ^ 52 * 2 ^ p) by (rewrite Z.pow_add_r; lia).
  nia.
Qed.


Lemma le_of_mul_le (a b K : Z) : 0 < K -> a * K <= b * K -> a <= b.
Proof. intros HK H. apply (Z.mul_le_mono_pos_r a b K HK). exact H. Qed.

Lemma pow2_split (u : Z) : 0 <= u <= 200 -> 2 ^ 200 = 2 ^ (200 - u) * 2 ^ u.
Proof. intros Hu. rewrite <- Z.pow_add_r by lia. f_equal. lia. Qed.

Lemma ceil_gap (n D m' u : Z) :
  1 <= n <= 2 ^ 53 -> 1 <= D -> 0 <= u <= 201 -> 1 <= m' ->
  - (D * 2 ^ u) <= 2 * (m' * 2 ^ u) * D - 2 * (n * 2 ^ 200) <= D * 2 ^ u ->
  2 ^ 52 * (D * 2 ^ u) <= n * 2 ^ 200 ->
  (m' * 2 ^ u + 2 ^ 200 - 1) / 2 ^ 200 = (n + D - 1) / D.
Proof.
  intros Hn HD Hu Hm Hc Hd.
  set (c := (n + D - 1) / D).
  assert (Hc1 : D * c <= n + D - 1) by (apply Z.mul_div_le; lia).
  assert (Hc2 : n + D - 1 < D * c + D).
  { pose proof (Z.mod_pos_bound (n + D - 1) D ltac:(lia)).
    pose proof (Z.div_mod (n + D - 1) D ltac:(lia)). lia. }
  assert (HU : 0 < 2 ^ u) by (apply Z.pow_pos_nonneg; lia).
  assert (HS : 0 < 2 ^ 200) by lia.
  assert (Hb : m' * 2 ^ u <= c * 2 ^ 200 /\ (c - 1) * 2 ^ 200 < m' * 2 ^ u).
  { destruct (Z.le_gt_cases u 200) as [Hu2|Hu2].
    - pose proof (pow2_split u ltac:(lia)) as Hsplit.
      set (j := 2 ^ (200 - u)) in *. set (U := 2 ^ u) in *.
      assert (Hj : 0 < j) by (unfold j; apply Z.pow_pos_nonneg; lia).
      assert (Hjdef : j = 2 ^ (200 - u)) by reflexivity.
      rewrite Hsplit in *. clearbody j U.
      assert (HUD : 0 < U * D) by nia.
      split.
      + assert (n * (j * U) <= D * c * (j * U)) by (apply Z.mul_le_mono_nonneg_r; nia).
        assert (Hm1 : 2 * m' * (U * D) <= (2 * c * j + 1) * (U * D)) by lia.
        apply le_of_mul_le in Hm1; [|lia].
        assert (m' <= c * j) by lia.
        replace (c * (j * U)) with ((c * j) * U) by ring.
        apply Z.mul_le_mono_nonneg_r; lia.
      + destruct (Z.eq_dec n (D * c)) as [Heq|Hne].
        * assert (Hm1 : (2 * c * j - 1) * (U * D) <= 2 * m' * (U * D)) by (assert (n * (j * U) = D * c * (j * U)) by (rewrite Heq; ring); lia).
          apply le_of_mul_le in Hm1; [|lia].
          assert (c * j <= m') by lia.
          assert (c * j * U <= m' * U) by (apply Z.mul_le_mono_nonneg_r; lia).
          nia.
        * assert (Hlo : (c - 1) * D + 1 <= n) by lia.
          assert (((c - 1) * D + 1) * (j * U) <= n * (j * U))
            by (apply Z.mul_le_mono_nonneg_r; nia).
          destruct (Z.lt_ge_cases D (2 * j)) as [HDj|HDj].
          -- assert (Hm1 : (2 * (c - 1) * j) * (U * D) < (2 * m') * (U * D)) by nia.
             apply Z.mul_lt_mono_pos_r in Hm1; [|lia].
             assert ((c - 1) * j * U < m' * U) by (apply Z.mul_lt_mono_pos_r; lia).
             replace ((c - 1) * (j * U)) with ((c - 1) * j * U) by ring. lia.
          -- assert (Hd1 : 2 ^ 52 * D * U <= n * j * U) by lia.
             apply le_of_mul_le in Hd1; [|lia].
             assert (n * j <= 2 ^ 53 * j) by (apply Z.mul_le_mono_nonneg_r; lia).
             assert (HD2 : D = 2 * j) by lia.
             assert (Hn53 : n = 2 ^ 53) by nia.
             destruct (Z.le_gt_cases 148 u) as [Hu3|Hu3].
             ++ assert (Hk : 2 ^ 52 = j * 2 ^ (u - 148)).
                { rewrite Hjdef, <- Z.pow_add_r by lia. f_equal. lia. }
                set (k := 2 ^ (u - 148)) in *. clearbody k.
                assert (Hnk : n = D * k) by lia.
                assert (c = k) by nia.
                exfalso. apply Hne. subst c. lia.
             ++ assert (Hbig : 2 ^ 53 <= j).
                { rewrite Hjdef. apply Z.pow_le_mono_r; lia. }
                assert (c = 1) by nia.
                replace (c - 1) with 0 by lia. nia.
    - assert (u = 201) by lia. subst u.
      assert (D = 1) by lia. subst D.
      assert (c = n) by lia.
      assert (n = 2 ^ 53) by lia.
      assert (m' = 2 ^ 52) by lia.
      split; lia. }
  symmetry. apply Z.div_unique_pos with (r := m' * 2 ^ u + 2 ^ 200 - 1 - 2 ^ 200 * c); lia.
Qed.

(** [int64(math.Ceil(x))] for a positive finite [x] of moderate exponent,
    as an integer ceiling at scale [2^200]. *)
Lemma ceil_to_int64 (ind : Z) (m : positive) (E : Z) :
  Zpos m < 2 ^ 53 -> -200 <= E <= 9 ->
  GoFloat.to_int64 ind (GoFloat.Ceil (S754_finite false m E))
  = (Zpos m * 2 ^ (E + 200) + 2 ^ 200 - 1) / 2 ^ 200.
Proof.
  intros Hm HE. unfold GoFloat.Ceil.
  destruct (Z.leb_spec 0 E) as [HE0|HE0].
  - unfold GoFloat.to_int64. rewrite (proj2 (Z.leb_le 0 E) HE0).
    assert (Hp : 2 ^ E <= 2 ^ 9) by (apply Z.pow_le_mono_r; lia).
    assert (Hp0 : 0 < 2 ^ E) by (apply Z.pow_pos_nonneg; lia).
    assert (Hr : (-2 ^ 63 <=? Zpos m * 2 ^ E) && (Zpos m * 2 ^ E <? 2 ^ 63) = true).
    { apply andb_true_intro; split; [apply Z.leb_le | apply Z.ltb_lt]; nia. }
    rewrite Hr. rewrite Z.pow_add_r by lia.
    replace (Zpos m * (2 ^ E * 2 ^ 200) + 2 ^ 200 - 1)
      with ((Zpos m * 2 ^ E) * 2 ^ 200 + (2 ^ 200 - 1)) by ring.
    rewrite Z.div_add_l by lia. rewrite Z.div_small by lia. lia.
  - cbv zeta.
    set (k := 2 ^ (- E)).
    assert (Hk : 0 < k) by (unfold k; apply Z.pow_pos_nonneg; lia).
    set (c := (Zpos m + k - 1) / k).
    assert (Hc1 : k * c <= Zpos m + k - 1) by (apply Z.mul_div_le; lia).
    assert (Hc2 : Zpos m + k - 1 < k * c + k).
    { pose proof (Z.mod_pos_bound (Zpos m + k - 1) k Hk).
      pose proof (Z.div_mod (Zpos m + k - 1) k ltac:(lia)). lia. }
    assert (Hc3 : 1 <= c <= Zpos m) by nia.
    destruct (normalize_spec c false ltac:(lia))
      as (mc & Ec & Hn & _ & _ & Hex & _).
    rewrite Hn. rewrite (proj2 (Z.ltb_ge c 0) ltac:(lia)).
    destruct (Hex ltac:(lia)) as [Hex1 Hex2].
    assert (Ht : (if 0 <=? Ec then Zpos mc * 2 ^ Ec else Zpos mc / 2 ^ (- Ec)) = c).
    { destruct (Z.leb_spec 0 Ec) as [H|H].
      - rewrite Hex1 by lia. lia.
      - rewrite Hex2 by lia. rewrite Z.abs_eq by lia.
        apply Z.div_mul. apply Z.pow_nonzero; lia. }
    unfold GoFloat.to_int64. rewrite Ht.
    assert (Hr : (-2 ^ 63 <=? c) && (c <? 2 ^ 63) = true).
    { apply andb_true_intro; split; [apply Z.leb_le | apply Z.ltb_lt]; lia. }
    rewrite Hr.
    set (j := 2 ^ (E + 200)).
    assert (Hj : 0 < j) by (unfold j; apply Z.pow_pos_nonneg; lia).
    assert (HS : 2 ^ 200 = k * j).
    { unfold k, j. rewrite <- Z.pow_add_r by lia. f_equal. lia. }
    rewrite HS. rewrite Z.mul_comm with (n := k), <- Z.div_div by lia.
    replace (Zpos m * j + j * k - 1) with ((Zpos m + k - 1) * j + (j - 1)) by ring.
    rewrite Z.div_add_l by lia. rewrite (Z.div_small (j - 1) j) by lia.
    rewrite Z.add_0_r. reflexivity.
Qed.


Lemma scaled_val (x m e : Z) :
  -60 <= e -> (0 <= e -> m * 2 ^ e = x) -> (e < 0 -> m = x * 2 ^ (- e)) ->
  x * 2 ^ 60 = m * 2 ^ (e + 60).
Proof.
  intros He H1 H2. destruct (Z.leb_spec 0 e) as [H|H].
  - rewrite Z.pow_add_r by lia. rewrite <- (H1 H). ring.
  - rewrite (H2 H). rewrite <- Z.mul_assoc, <- Z.pow_add_r by lia.
    replace (- e + (e + 60)) with 60 by lia. reflexivity.
Qed.

Lemma ceil_one (n D : Z) : 1 <= n <= D -> (n + D - 1) / D = 1.
Proof.
  intros H. symmetry. apply Z.div_unique_pos with (r := n - 1); lia.
Qed.

Lemma pow2_mul (a b : Z) : 0 <= a -> 0 <= b -> 2 ^ a * 2 ^ b = 2 ^ (a + b).
Proof. intros. rewrite Z.pow_add_r; lia. Qed.

(** [int64(math.Ceil(float64(n) / float64(d)))] is the integer ceiling of
    [n / d] when [1 <= n <= 2^53] and [d] is a positive [int64]. *)
Lemma maxpage_core (ind n d : Z) :
  1 <= n <= 2 ^ 53 -> 1 <= d < 2 ^ 63 ->
  GoFloat.to_int64 ind
    (GoFloat.Ceil (GoFloat.div (GoFloat.of_int n) (GoFloat.of_int d)))
  = (n + d - 1) / d.
Proof.
  intros Hn Hd.
  destruct (normalize_spec n false ltac:(lia))
    as (m1 & e1 & Hn1 & Hm1 & He1 & Hex1 & _).
  destruct (normalize_spec d false ltac:(lia))
    as (m2 & e2 & Hn2 & Hm2 & He2 & Hex2 & Hbig2).
  unfold GoFloat.of_int. rewrite Hn1, Hn2.
  rewrite (proj2 (Z.ltb_ge n 0) ltac:(lia)), (proj2 (Z.ltb_ge d 0) ltac:(lia)).
  rewrite Z.abs_eq in Hex1, Hex2, Hbig2 by lia.
  destruct (Hex1 ltac:(lia)) as [Hex1a Hex1b].
  assert (He1' : e1 <= 1).
  { destruct (Z.le_gt_cases e1 1) as [|Hc]; [assumption|].
    assert (2 ^ 2 <= 2 ^ e1) by (apply Z.pow_le_mono_r; lia).
    specialize (Hex1a ltac:(lia)). nia. }
  assert (HnK : n * 2 ^ 60 = Zpos m1 * 2 ^ (e1 + 60))
    by (apply scaled_val; assumption || lia).
  assert (HD : exists D, 1 <= D /\ D * 2 ^ 60 = Zpos m2 * 2 ^ (e2 + 60) /\
                         (n + D - 1) / D = (n + d - 1) / d).
  { destruct (Z.le_gt_cases d (2 ^ 53)) as [Hs|Hb].
    - destruct (Hex2 Hs) as [Hex2a Hex2b].
      exists d. split; [lia|]. split; [|reflexivity].
      apply scaled_val; assumption || lia.
    - specialize (Hbig2 Hb).
      assert (2 ^ 1 <= 2 ^ e2) by (apply Z.pow_le_mono_r; lia).
      exists (Zpos m2 * 2 ^ e2). split; [nia|]. split.
      + rewrite <- Z.mul_assoc, pow2_mul by lia. reflexivity.
      + rewrite !ceil_one by nia. reflexivity. }
  destruct HD as (D & HD1 & HDK & HDc). rewrite <- HDc.
  unfold GoFloat.div.
  destruct (div_spec m1 m2 e1 e2 Hm1 Hm2 ltac:(lia) ltac:(lia))
    as (m'' & E & m' & p & Hdiv & Hm'' & Hp & HE & Hv & Hc & Hlow & Hm').
  rewrite Hdiv.
  rewrite ceil_to_int64 by lia.
  set (w := e1 - e2 - 53 + p) in *.
  set (u := w + 200).
  replace (Zpos m'' * 2 ^ (E + 200)) with (m' * 2 ^ u).
  2:{ rewrite <- Hv. unfold u. rewrite <- Z.mul_assoc, pow2_mul by lia.
      f_equal. f_equal. lia. }
  assert (Hi : 2 ^ u * 2 ^ (e2 + 60) = 2 ^ p * 2 ^ (e1 + 207)).
  { unfold u, w. rewrite !pow2_mul by lia. f_equal. lia. }
  assert (Hii : 2 ^ 200 * 2 ^ (e1 + 60) = 2 ^ 53 * 2 ^ (e1 + 207)).
  { rewrite !pow2_mul by lia. f_equal. lia. }
  assert (HF : 0 < 2 ^ (e1 + 207)) by (apply Z.pow_pos_nonneg; lia).
  assert (HK : 0 < 2 ^ 60) by lia.
  set (F := 2 ^ (e1 + 207)) in *. set (K := 2 ^ 60) in *.
  set (A1 := 2 ^ (e1 + 60)) in *. set (A2 := 2 ^ (e2 + 60)) in *.
  set (U := 2 ^ u) in *. set (P := 2 ^ p) in *.
  assert (E1 : (2 * (m' * U) * D - 2 * (n * 2 ^ 200)) * K
               = (2 * m' * (P * Zpos m2) - 2 * (Zpos m1 * 2 ^ 53)) * F).
  { transitivity (2 * m' * U * (D * K) - 2 * 2 ^ 200 * (n * K)); [ring|].
    rewrite HDK, HnK.
    transitivity (2 * m' * Zpos m2 * (U * A2) - 2 * Zpos m1 * (2 ^ 200 * A1)); [ring|].
    rewrite Hi, Hii. ring. }
  assert (E2 : D * U * K = P * Zpos m2 * F).
  { transitivity (U * (D * K)); [ring|]. rewrite HDK.
    transitivity (Zpos m2 * (U * A2)); [ring|]. rewrite Hi. ring. }
  assert (E3 : n * 2 ^ 200 * K = Zpos m1 * 2 ^ 53 * F).
  { transitivity (2 ^ 200 * (n * K)); [ring|]. rewrite HnK.
    transitivity (Zpos m1 * (2 ^ 200 * A1)); [ring|]. rewrite Hii. ring. }
  assert (I1 : - (P * Zpos m2) * F
               <= (2 * m' * (P * Zpos m2) - 2 * (Zpos m1 * 2 ^ 53)) * F)
    by (apply Z.mul_le_mono_pos_r; lia).
  assert (I2 : (2 * m' * (P * Zpos m2) - 2 * (Zpos m1 * 2 ^ 53)) * F
               <= (P * Zpos m2) * F)
    by (apply Z.mul_le_mono_pos_r; lia).
  assert (I3 : 2 ^ 52 * (P * Zpos m2) * F <= (Zpos m1 * 2 ^ 53) * F)
    by (apply Z.mul_le_mono_pos_r; lia).
  apply ceil_gap; lia.
Qed.

End FloatFacts.

(* ================================================================== *)
(** * Includes *)

Module IncludeFacts.

Lemma map_index_spec (m : gmap string bool) (k : string) :
  map_index m k = bool_decide (m !! k = Some true).
Proof.
  unfold map_index. case_bool_decide as H; destruct (m !! k) as [[|]|]; congruence.
Qed.

Lemma fold_secure (allowed : gmap string bool) (l acc : list string) :
  fold_left
    (fun validIncludes include =>
       if map_index allowed include then
         if isValidInclude include then validIncludes ++ [include]
         else validIncludes
       else validIncludes) l acc
  = acc ++ spec_resolve_includes allowed l.
Proof.
  revert acc. induction l as [|x l IH]; intros acc; cbn [fold_left].
  - unfold spec_resolve_includes. simpl. rewrite app_nil_r. reflexivity.
  - rewrite IH. unfold spec_resolve_includes. rewrite map_index_spec.
    destruct (bool_decide (allowed !! x = Some true)) eqn:Ha;
      destruct (isValidInclude x) eqn:Hv; simpl.
    + rewrite filter_cons_True by (rewrite Ha, Hv; exact I).
      rewrite <- app_assoc. reflexivity.
    + rewrite filter_cons_False by (rewrite Ha, Hv; intros []). reflexivity.
    + rewrite filter_cons_False by (rewrite Ha; intros []). reflexivity.
    + rewrite filter_cons_False by (rewrite Ha; intros []). reflexivity.
Qed.

Lemma secure_resolves (allowed : gmap string bool) (includes : list string) :
  ValidateIncludesSecure allowed includes = spec_resolve_includes allowed includes.
Proof. unfold ValidateIncludesSecure. rewrite fold_secure. reflexivity. Qed.

Lemma fold_plain (allowed : gmap string bool) (l acc : list string) :
  (forall x, allowed !! x = Some true -> isValidInclude x = true) ->
  fold_left
    (fun validIncludes include =>
       if map_index allowed include then validIncludes ++ [include]
       else validIncludes) l acc
  = acc ++ spec_resolve_includes allowed l.
Proof.
  intros Hk. revert acc. induction l as [|x l IH]; intros acc; cbn [fold_left].
  - unfold spec_resolve_includes. simpl. rewrite app_nil_r. reflexivity.
  - rewrite IH. unfold spec_resolve_includes. rewrite map_index_spec.
    destruct (bool_decide (allowed !! x = Some true)) eqn:Ha; simpl.
    + pose proof (Hk x (proj1 (bool_decide_eq_true _) Ha)) as Hv.
      rewrite filter_cons_True by (rewrite Ha, Hv; exact I).
      rewrite <- app_assoc. reflexivity.
    + rewrite filter_cons_False by (rewrite Ha; intros []). reflexivity.
Qed.

Lemma plain_resolves (allowed : gmap string bool) (includes : list string) :
  (forall x, allowed !! x = Some true -> isValidInclude x = true) ->
  ValidateIncludesPlain allowed includes = spec_resolve_includes allowed includes.
Proof. intros Hk. unfold ValidateIncludesPlain. rewrite fold_plain by exact Hk. reflexivity. Qed.

Ltac keys_valid :=
  let x := fresh "x" in let H := fresh "H" in
  intros x H; apply elem_of_list_to_map_2, list_elem_of_In in H;
  repeat (destruct H as [H|H]; [injection H as <-; reflexivity|]); destruct H.

Lemma province_keys (x : string) :
  ProvinceAllowedIncludes !! x = Some true -> isValidInclude x = true.
Proof. revert x. unfold ProvinceAllowedIncludes. keys_valid. Qed.
Lemma athlete_keys (x : string) :
  AthleteAllowedIncludes !! x = Some true -> isValidInclude x = true.
Proof. revert x. unfold AthleteAllowedIncludes. keys_valid. Qed.
Lemma sport_keys (x : string) :
  SportAllowedIncludes !! x = Some true -> isValidInclude x = true.
Proof. revert x. unfold SportAllowedIncludes. keys_valid. Qed.
Lemma event_keys (x : string) :
  EventAllowedIncludes !! x = Some true -> isValidInclude x = true.
Proof. revert x. unfold EventAllowedIncludes. keys_valid. Qed.

(** C1: [Validate()] replaces [Includes] with exactly the requested names
    whose allow-list value is [true] and that pass [isValidInclude], in
    request order, dropping the others: for the README's secure filter on
    any allow-list, for the four example filters (whose allowed names are all
    well-formed), and on the allow-list [{Province: true, Sport: true}] with
    the request [[Province; Secret]], which keeps [[Province]]. *)
Theorem validate_keeps_allowed_valid_in_order :
  (forall (allowed : gmap string bool) (includes : list string),
     ValidateIncludesSecure allowed includes = spec_resolve_includes allowed includes) /\
  (forall includes : list string,
     ValidateIncludesPlain ProvinceAllowedIncludes includes
     = spec_resolve_includes ProvinceAllowedIncludes includes) /\
  (forall includes : list string,
     ValidateIncludesPlain AthleteAllowedIncludes includes
     = spec_resolve_includes AthleteAllowedIncludes includes) /\
  (forall includes : list string,
     ValidateIncludesPlain SportAllowedIncludes includes
     = spec_resolve_includes SportAllowedIncludes includes) /\
  (forall includes : list string,
     ValidateIncludesPlain EventAllowedIncludes includes
     = spec_resolve_includes EventAllowedIncludes includes) /\
  ValidateIncludesSecure (list_to_map [("Province", true); ("Sport", true)])
    ["Province"; "Secret"] = ["Province"]%string.
Proof.
  split; [exact secure_resolves|].
  split; [intros; apply plain_resolves, province_keys|].
  split; [intros; apply plain_resolves, athlete_keys|].
  split; [intros; apply plain_resolves, sport_keys|].
  split; [intros; apply plain_resolves, event_keys|].
  vm_compute. reflexivity.
Qed.

End IncludeFacts.

(* ================================================================== *)
(** * Request binding and normalization *)

Module BindFacts.

Lemma is_disabled_words (t : string) :
  (match t with "1" | "true" | "yes" | "y" | "on" => true | _ => false end)%string = true ->
  In t ["1"; "true"; "yes"; "y"; "on"]%string.
Proof.
  intros H.
  repeat match goal with
  | H : context [match ?x with _ => _ end] |- _ => is_var x; destruct x
  end; try discriminate H; simpl; tauto.
Qed.

Ltac z_cases :=
  repeat match goal with
  | |- context [?a <=? ?b] => destruct (Z.leb_spec a b)
  | |- context [?a <? ?b] => destruct (Z.ltb_spec a b)
  end.

Lemma Atoi_empty : GoStr.Atoi "" = None.
Proof. reflexivity. Qed.

Lemma bind_page (ctx : Context) : 1 <= Page (BindPagination ctx).
Proof.
  unfold BindPagination, Validate. cbn [Page].
  destruct (negb (String.eqb (Query ctx "page") "")); [destruct (GoStr.Atoi _) as [v|]|];
    z_cases; cbn; z_cases; lia.
Qed.

Lemma bind_per_page (ctx : Context) :
  PerPage (BindPagination ctx)
  = let v := Query ctx "per_page" in
    if negb (String.eqb v "") then
      match GoStr.Atoi v with
      | Some n => if (0 <? n) && (n <=? 100) then n else 10
      | None => 10
      end
    else 10.
Proof.
  unfold BindPagination, Validate. cbn [PerPage]. cbv zeta.
  destruct (negb (String.eqb (Query ctx "per_page") "")); [destruct (GoStr.Atoi _) as [v|]|];
    cbn; z_cases; cbn; z_cases; try reflexivity; cbn in *; lia.
Qed.

Lemma bind_order (ctx : Context) :
  Order (BindPagination ctx) = "asc"%string \/ Order (BindPagination ctx) = "desc"%string.
Proof.
  unfold BindPagination, Validate. cbn [Order].
  set (o := Query ctx "order").
  destruct (String.eqb_spec o "desc") as [Hd|Hd]; [rewrite Hd; cbn; auto|].
  destruct (String.eqb_spec o "asc") as [Ha|Ha]; [rewrite Ha; cbn; auto|].
  cbn. auto.
Qed.

Lemma bind_is_disabled (ctx : Context) :
  ~ In (GoStr.ToLower (Query ctx "is_disabled")) ["1"; "true"; "yes"; "y"; "on"]%string ->
  IsDisabled (BindPagination ctx) = false.
Proof.
  intros Hn. unfold BindPagination, Validate. cbn [IsDisabled].
  destruct (negb (String.eqb (Query ctx "is_disabled") "")); [|reflexivity].
  destruct (match GoStr.ToLower (Query ctx "is_disabled") with
            | "1" | "true" | "yes" | "y" | "on" => true | _ => false end)%string
    eqn:E; [|reflexivity].
  exfalso. apply Hn. apply is_disabled_words. exact E.
Qed.

Lemma bind_per_page_range (ctx : Context) : 1 <= PerPage (BindPagination ctx) <= 100.
Proof.
  rewrite bind_per_page. cbv zeta.
  destruct (negb (String.eqb (Query ctx "per_page") "")); [|lia].
  destruct (GoStr.Atoi _) as [v|]; [|lia].
  destruct (Z.ltb_spec 0 v), (Z.leb_spec v 100); cbn; lia.
Qed.

(** C2: binding never yields a [PerPage] outside [1..100], whatever the
    client sends; a [per_page] that parses to a value above [100] (or to a
    value [<= 0]) binds the default [10]. *)
Theorem bind_per_page_capped (ctx : Context) :
  1 <= PerPage (BindPagination ctx) <= 100 /\
  (forall n : Z, GoStr.Atoi (Query ctx "per_page") = Some n -> (100 < n \/ n <= 0) ->
     PerPage (BindPagination ctx) = 10).
Proof.
  split; [apply bind_per_page_range|].
  intros n Hn Hr. rewrite bind_per_page. cbv zeta.
  destruct (String.eqb_spec (Query ctx "per_page") "") as [He|He].
  - rewrite He, Atoi_empty in Hn. discriminate.
  - cbn. rewrite Hn.
    destruct (Z.ltb_spec 0 n), (Z.leb_spec n 100); cbn; lia.
Qed.

(** C5: [Validate()] yields [Page >= 1] (1 when [Page <= 0]), [PerPage >= 1]
    (10 when [PerPage <= 0]) and [Order] in [{asc, desc}] ([asc] for every
    other value, the empty string included), and leaves in-range values as
    they are. *)
Theorem validate_normalizes (p : PaginationRequest.t) :
  1 <= Page (Validate p) /\ 1 <= PerPage (Validate p) /\
  (Order (Validate p) = "asc"%string \/ Order (Validate p) = "desc"%string) /\
  (Page p <= 0 -> Page (Validate p) = 1) /\
  (1 <= Page p -> Page (Validate p) = Page p) /\
  (PerPage p <= 0 -> PerPage (Validate p) = 10) /\
  (1 <= PerPage p -> PerPage (Validate p) = PerPage p) /\
  (Order p <> "asc"%string -> Order p <> "desc"%string -> Order (Validate p) = "asc"%string) /\
  (Order p = "asc"%string \/ Order p = "desc"%string -> Order (Validate p) = Order p).
Proof.
  destruct p as [pg pp se so o d]. unfold Validate. cbn [Page PerPage Order].
  assert (Hord : let o1 := if String.eqb o "" then "asc"%string else o in
     (if negb (String.eqb o1 "asc") && negb (String.eqb o1 "desc") then "asc"%string else o1)
     = (if String.eqb o "desc" then "desc" else "asc")%string).
  { destruct (String.eqb_spec o "") as [->|H0]; [reflexivity|].
    cbv beta iota zeta.
    destruct (String.eqb_spec o "asc") as [->|Ha]; [reflexivity|].
    destruct (String.eqb_spec o "desc") as [->|Hd]; [reflexivity|].
    cbn. reflexivity. }
  cbv zeta in Hord. rewrite Hord.
  destruct (String.eqb_spec o "desc") as [Hd|Hd].
  - destruct (Z.leb_spec pg 0), (Z.leb_spec pp 0); repeat split; intros; try lia; auto; congruence.
  - destruct (Z.leb_spec pg 0), (Z.leb_spec pp 0); repeat split; intros; try lia; auto;
      intuition congruence.
Qed.

End BindFacts.

(* ================================================================== *)
(** * Page metadata *)

Module CalcFacts.

Lemma of_int_zero : GoFloat.of_int 0 = S754_zero false.
Proof. reflexivity. Qed.

(** [int64(math.Ceil(float64(0) / float64(d)))] is [0] for a non-zero
    [int64] [d]: the quotient is a signed zero. *)
Lemma zero_total (ind d : Z) :
  d <> 0 -> -2 ^ 63 <= d < 2 ^ 63 ->
  GoFloat.to_int64 ind
    (GoFloat.Ceil (GoFloat.div (GoFloat.of_int 0) (GoFloat.of_int d))) = 0.
Proof.
  intros Hd Hr.
  destruct (FloatFacts.normalize_spec d false ltac:(lia)) as (m & E & Hn & _).
  rewrite of_int_zero. unfold GoFloat.of_int. rewrite Hn. reflexivity.
Qed.

Lemma ceil_div_pos (n d : Z) : 1 <= n -> 1 <= d -> 1 <= (n + d - 1) / d.
Proof.
  intros Hn Hd. apply Z.div_le_lower_bound; lia.
Qed.

(** C3 (as amended): for [0 <= total <= 2^53] and [1 <= perPage < 2^63],
    with paging enabled, [MaxPage] is [max(1, ceil(total / perPage))],
    whatever the platform's value for out-of-range conversions. *)
Theorem calculate_max_page_ceil (ind : Z) (p : PaginationRequest.t) (total : Z) :
  0 <= total <= 2 ^ 53 -> 1 <= PerPage p < 2 ^ 63 -> IsDisabled p = false ->
  PaginationResponse.MaxPage (CalculatePagination ind p total)
  = Z.max 1 ((total + PerPage p - 1) / PerPage p).
Proof.
  intros Ht Hd Hdis. unfold CalculatePagination. rewrite Hdis. cbv zeta.
  cbn [PaginationResponse.MaxPage].
  destruct (Z.eq_dec total 0) as [->|Hn].
  - rewrite zero_total by lia. cbn.
    rewrite Z.div_small by lia. reflexivity.
  - rewrite FloatFacts.maxpage_core by lia.
    pose proof (ceil_div_pos total (PerPage p) ltac:(lia) ltac:(lia)).
    destruct (Z.eqb_spec ((total + PerPage p - 1) / PerPage p) 0); lia.
Qed.

(** With [2^53 + 1] rows at one row per page, [float64(total)] rounds to
    [2^53], so [MaxPage] is [2^53] rather than [2^53 + 1]. *)
Lemma max_page_rounds_past_2_53 :
  PaginationResponse.MaxPage
    (CalculatePagination (- 2 ^ 63) (PaginationRequest.mk 1 1 "" "" "asc" false)
       (2 ^ 53 + 1)) = 2 ^ 53 /\
  Z.max 1 ((2 ^ 53 + 1 + 1 - 1) / 1) = 2 ^ 53 + 1.
Proof. split; vm_compute; reflexivity. Qed.

(** With no rows and [PerPage = 0] (paging enabled), [0.0 / 0.0] is NaN and
    [int64(NaN)] is the platform's out-of-range value; on amd64 that is
    [math.MinInt64], which is returned as [MaxPage]. *)
Lemma max_page_nan_on_zero_per_page :
  PaginationResponse.MaxPage
    (CalculatePagination (- 2 ^ 63) (PaginationRequest.mk 1 0 "" "" "asc" false) 0)
  = - 2 ^ 63.
Proof. vm_compute. reflexivity. Qed.

(** C4 (as amended): with paging disabled the response is exactly
    [{Page: 1, PerPage: total, MaxPage: 1, Total: total, IsDisabled: true}];
    and [MaxPage] is [1] whenever paging is disabled, or [total] is [0] and
    [PerPage] is a non-zero [int64]. *)
Theorem calculate_disabled_or_empty (ind : Z) :
  (forall (p : PaginationRequest.t) (total : Z), IsDisabled p = true ->
     CalculatePagination ind p total = PaginationResponse.mk 1 total 1 total true) /\
  (forall (p : PaginationRequest.t) (total : Z),
     IsDisabled p = true \/ (total = 0 /\ PerPage p <> 0 /\ -2 ^ 63 <= PerPage p < 2 ^ 63) ->
     PaginationResponse.MaxPage (CalculatePagination ind p total) = 1).
Proof.
  split.
  - intros p total Hdis. unfold CalculatePagination. rewrite Hdis. reflexivity.
  - intros p total [Hdis | (-> & Hd & Hr)].
    + unfold CalculatePagination. rewrite Hdis. reflexivity.
    + unfold CalculatePagination. destruct (IsDisabled p); [reflexivity|].
      cbv zeta. cbn [PaginationResponse.MaxPage].
      rewrite zero_total by assumption. reflexivity.
Qed.

(** C10: with paging enabled, the response's [Page] is the request's [Page]
    as is, unclamped: [Page = 5] with [total = 10] and [perPage = 10] gives
    [Page = 5] and [MaxPage = 1]. *)
Theorem calculate_copies_page (ind : Z) :
  (forall (p : PaginationRequest.t) (total : Z), IsDisabled p = false ->
     PaginationResponse.Page (CalculatePagination ind p total) = Page p) /\
  PaginationResponse.Page
    (CalculatePagination ind (PaginationRequest.mk 5 10 "" "" "asc" false) 10) = 5 /\
  PaginationResponse.MaxPage
    (CalculatePagination ind (PaginationRequest.mk 5 10 "" "" "asc" false) 10) = 1.
Proof.
  split; [|split].
  - intros p total Hdis. unfold CalculatePagination. rewrite Hdis. reflexivity.
  - reflexivity.
  - vm_compute. reflexivity.
Qed.

End CalcFacts.

(* ================================================================== *)
(** * Search clause *)

Module SearchFacts.

(** C6: for a non-empty field list and a non-empty term, the clause compares
    each field with [ILIKE] under PostgreSQL and [LIKE] under the other
    dialects, and the term reaches the statement only as the bound argument
    [%term%] (once per field): the SQL text does not depend on the term. *)
Theorem search_clause_binds_term (fields : list string) (dialect : DatabaseDialect)
  (q : DB) :
  fields <> [] ->
  let op := match dialect with PostgreSQL => "ILIKE" | _ => "LIKE" end%string in
  let text := match fields with
              | [f] => (f ++ " " ++ op ++ " ?")%string
              | _ => ("(" ++ GoStr.Join (map (fun f => f ++ " " ++ op ++ " ?") fields)
                        " OR " ++ ")")%string
              end in
  forall term : string, term <> ""%string ->
  CreateSearchableFilter fields dialect q term
  = Where q text (map (fun _ => ArgStr ("%" ++ term ++ "%")) fields).
Proof.
  intros Hf op text term Ht. unfold CreateSearchableFilter.
  replace ((length fields =? 0)%nat) with false by (destruct fields; [congruence|reflexivity]).
  rewrite (proj2 (String.eqb_neq term "") Ht). cbn [orb].
  unfold text, op.
  destruct fields as [|f [|g rest]]; [congruence| |];
    destruct dialect; reflexivity.
Qed.

(** C9: with an empty field list or an empty term the clause builder returns
    the query unchanged. *)
Theorem search_clause_identity (fields : list string) (dialect : DatabaseDialect)
  (q : DB) (term : string) :
  fields = [] \/ term = ""%string -> CreateSearchableFilter fields dialect q term = q.
Proof.
  intros [-> | ->]; unfold CreateSearchableFilter.
  - reflexivity.
  - rewrite orb_true_r. reflexivity.
Qed.

End SearchFacts.

(* ================================================================== *)
(** * Helpers: binding failures and store errors *)

Module HelperFacts.

Lemma secure_member (allowed : gmap string bool) (includes : list string) (x : string) :
  In x (ValidateIncludesSecure allowed includes) ->
  In x includes /\ map_index allowed x = true /\ isValidInclude x = true.
Proof.
  rewrite IncludeFacts.secure_resolves. unfold spec_resolve_includes.
  rewrite <- list_elem_of_In, list_elem_of_filter, list_elem_of_In.
  intros [Hp Hin]. rewrite IncludeFacts.map_index_spec.
  destruct (bool_decide (allowed !! x = Some true)), (isValidInclude x);
    try contradiction; auto.
Qed.

Ltac z_cases :=
  repeat match goal with
  | |- context [?a <=? ?b] => destruct (Z.leb_spec a b)
  | |- context [?a <? ?b] => destruct (Z.ltb_spec a b)
  end.

Lemma digits_value_ge (s : string) : forall n m : Z,
  0 <= n -> GoStr.digits_value s n = Some m -> n <= m.
Proof.
  induction s as [|c s IH]; intros n m Hn H; cbn [GoStr.digits_value] in H.
  - injection H as <-. lia.
  - destruct (GoStr.is_digit c); [|discriminate H].
    apply IH in H; lia.
Qed.

Lemma parse_uint_digits_ok (s : string) : forall n m : Z,
  0 <= n <= GoStrconv.maxUint64 ->
  GoStrconv.parse_uint_digits s n = GoStrconv.ParsedOK m <->
  GoStr.digits_value s n = Some m /\ m <= GoStrconv.maxUint64.
Proof.
  induction s as [|c s IH]; intros n m Hn;
    cbn [GoStrconv.parse_uint_digits GoStr.digits_value].
  - split; [intros H; injection H as <-; split; [reflexivity | lia] | intros [H _]; injection H as <-; reflexivity].
  - destruct (GoStr.is_digit c); [|split; [discriminate | intros [H _]; discriminate H]].
    destruct (Z.leb_spec GoStrconv.cutoff n).
    + split; [discriminate|]. intros [Hd Hm].
      apply digits_value_ge in Hd; [|lia].
      unfold GoStrconv.cutoff, GoStrconv.maxUint64 in *. lia.
    + destruct (Z.ltb_spec GoStrconv.maxUint64 (n * 10 + Z.of_nat (nat_of_ascii c - 48))).
      * split; [discriminate|]. intros [Hd Hm].
        apply digits_value_ge in Hd; lia.
      * apply IH. lia.
Qed.

Lemma ParseUint_ok (body : string) (m : Z) :
  GoStrconv.ParseUint body = GoStrconv.ParsedOK m <->
  body <> ""%string /\ GoStr.digits_value body 0 = Some m /\ m <= GoStrconv.maxUint64.
Proof.
  destruct body as [|c r].
  - split; [discriminate | intros [H _]; contradiction].
  - change (GoStrconv.ParseUint (String c r)) with (GoStrconv.parse_uint_digits (String c r) 0).
    rewrite parse_uint_digits_ok by (unfold GoStrconv.maxUint64; lia).
    split; [intros H; split; [discriminate | exact H] | intros [_ H]; exact H].
Qed.

Lemma ParseInt_sign (neg : bool) (body : string) (v : Z) :
  (match GoStrconv.ParseUint body with
   | GoStrconv.SyntaxError => GoStrconv.SyntaxError
   | GoStrconv.RangeError => GoStrconv.RangeError
   | GoStrconv.ParsedOK un =>
       if negb neg && (2 ^ 63 <=? un) then GoStrconv.RangeError
       else if neg && (2 ^ 63 <? un) then GoStrconv.RangeError
       else GoStrconv.ParsedOK (if neg then - un else un)
   end = GoStrconv.ParsedOK v) <->
  (if String.eqb body "" then None
   else match GoStr.digits_value body 0 with
        | Some u =>
            let w := if neg then - u else u in
            if GoStr.in_int64 w then Some w else None
        | None => None
        end) = Some v.
Proof.
  destruct (String.eqb_spec body "") as [->|Hne]; [split; discriminate|].
  destruct (GoStrconv.ParseUint body) as [un| |] eqn:Hu.
  - apply ParseUint_ok in Hu. destruct Hu as [_ [Hd Hm]]. rewrite Hd.
    pose proof (digits_value_ge body 0 un ltac:(lia) Hd) as H0.
    unfold GoStr.in_int64, GoStrconv.maxUint64 in *. cbv zeta.
    destruct neg; cbn; z_cases; cbn;
      split; intros Heq; try discriminate Heq; try lia;
      injection Heq as <-; reflexivity.
  - split; [discriminate|]. intros H. exfalso.
    destruct (GoStr.digits_value body 0) as [u|] eqn:Hd; [|discriminate H].
    cbv zeta in H. destruct (GoStr.in_int64 _) eqn:Hi; [|discriminate H].
    pose proof (digits_value_ge body 0 u ltac:(lia) Hd) as H0.
    apply andb_prop in Hi. destruct Hi as [H1 H2].
    apply Z.leb_le in H1. apply Z.ltb_lt in H2.
    assert (Hok : GoStrconv.ParseUint body = GoStrconv.ParsedOK u).
    { apply ParseUint_ok. split; [exact Hne|]. split; [exact Hd|].
      unfold GoStrconv.maxUint64. destruct neg; lia. }
    congruence.
  - split; [discriminate|]. intros H. exfalso.
    destruct (GoStr.digits_value body 0) as [u|] eqn:Hd; [|discriminate H].
    cbv zeta in H. destruct (GoStr.in_int64 _) eqn:Hi; [|discriminate H].
    pose proof (digits_value_ge body 0 u ltac:(lia) Hd) as H0.
    apply andb_prop in Hi. destruct Hi as [H1 H2].
    apply Z.leb_le in H1. apply Z.ltb_lt in H2.
    assert (Hok : GoStrconv.ParseUint body = GoStrconv.ParsedOK u).
    { apply ParseUint_ok. split; [exact Hne|]. split; [exact Hd|].
      unfold GoStrconv.maxUint64. destruct neg; lia. }
    congruence.
Qed.

(** [strconv.ParseInt(s, 10, 64)] succeeds exactly where [strconv.Atoi]
    does, with the same value. *)
Lemma ParseInt_Atoi (s : string) (v : Z) :
  GoStrconv.ParseInt s = GoStrconv.ParsedOK v <-> GoStr.Atoi s = Some v.
Proof.
  destruct s as [|c rest]; [split; discriminate|].
  unfold GoStrconv.ParseInt, GoStr.Atoi. cbv beta iota zeta.
  destruct (Ascii.eqb c "+"%char); [|destruct (Ascii.eqb c "-"%char)].
  - etransitivity; [exact (ParseInt_sign false rest v)|].
    destruct (String.eqb rest ""); [reflexivity|].
    destruct (GoStr.digits_value rest 0); reflexivity.
  - etransitivity; [exact (ParseInt_sign true rest v)|].
    destruct (String.eqb rest ""); [reflexivity|].
    destruct (GoStr.digits_value rest 0); reflexivity.
  - etransitivity; [exact (ParseInt_sign false (String c rest) v)|].
    cbn [String.eqb].
    destruct (GoStr.digits_value (String c rest) 0); reflexivity.
Qed.

(** gin's binding of an [int] field fails exactly on a non-empty value that
    [strconv.Atoi] rejects. *)
Lemma bind_int_error (Quote : string -> string) (val : string) :
  (exists err, bind_int Quote val = inl err) <->
  val <> ""%string /\ GoStr.Atoi val = None.
Proof.
  unfold bind_int.
  destruct (String.eqb_spec val "") as [->|Hne].
  - split; [intros [err H]; discriminate H | intros [H _]; contradiction].
  - cbv beta iota zeta. split.
    + intros [err H]. split; [exact Hne|].
      destruct (GoStr.Atoi val) as [v|] eqn:Ha; [|reflexivity].
      apply ParseInt_Atoi in Ha. rewrite Ha in H. discriminate H.
    + intros [_ Ha]. destruct (GoStrconv.ParseInt val) as [v| |] eqn:Hp.
      * apply ParseInt_Atoi in Hp. congruence.
      * eexists; reflexivity.
      * eexists; reflexivity.
Qed.

Lemma bind_page_fallback (ctx : Context) :
  (forall n : Z, GoStr.Atoi (Query ctx "page") = Some n -> n <= 0) ->
  Page (BindPagination ctx) = 1.
Proof.
  intros H. unfold BindPagination, Validate. cbn [Page].
  destruct (negb (String.eqb (Query ctx "page") "")); [|reflexivity].
  destruct (GoStr.Atoi (Query ctx "page")) as [v|] eqn:Ha; [|reflexivity].
  specialize (H v eq_refl). destruct (Z.ltb_spec 0 v); [lia|]. reflexivity.
Qed.

Lemma bind_per_page_fallback (ctx : Context) :
  (forall n : Z, GoStr.Atoi (Query ctx "per_page") = Some n -> n <= 0 \/ 100 < n) ->
  PerPage (BindPagination ctx) = 10.
Proof.
  intros H. rewrite BindFacts.bind_per_page. cbv zeta.
  destruct (negb (String.eqb (Query ctx "per_page") "")); [|reflexivity].
  destruct (GoStr.Atoi (Query ctx "per_page")) as [v|] eqn:Ha; [|reflexivity].
  specialize (H v eq_refl).
  destruct (Z.ltb_spec 0 v), (Z.leb_spec v 100); cbn; try reflexivity; lia.
Qed.

Lemma bind_order_fallback (ctx : Context) :
  Query ctx "order" <> "asc"%string -> Query ctx "order" <> "desc"%string ->
  Order (BindPagination ctx) = "asc"%string.
Proof.
  intros Ha Hd. unfold BindPagination, Validate. cbn [Order].
  destruct (String.eqb_spec (Query ctx "order") "desc"); [contradiction|].
  destruct (String.eqb_spec (Query ctx "order") "asc"); [contradiction|].
  reflexivity.
Qed.

Lemma preloads_keep_order (l : list string) : forall q : DB,
  db_order (fold_left Preload l q) = db_order q.
Proof.
  induction l as [|x l IH]; intros q; [reflexivity|].
  cbn [fold_left]. rewrite IH. reflexivity.
Qed.

Lemma query_layer_code_400 (ind : Z) {T σ : Type} (ctx : Context) (F : Filterable σ)
  (s : σ) (message : string) (queryFunc : σ -> list T * Z * option string) :
  PaginatedResponse.Code (PaginatedAPIResponseWithQueryLayer ind ctx F s message queryFunc)
  = 400 <->
  exists err, ShouldBindQuery F ctx
    (match BindPaginationMethod F with Some bind => bind ctx s | None => s end) = inl err.
Proof.
  unfold PaginatedAPIResponseWithQueryLayer. cbv zeta.
  destruct (ShouldBindQuery F ctx _) as [err|s'].
  - split; intros _; [exists err; reflexivity | reflexivity].
  - destruct (PaginatedQueryWithQueryLayer F s' queryFunc) as [s1 [[data total] [e|]]];
      cbn; (split; [intros H; discriminate H | intros [err H]; discriminate H]).
Qed.

(** C7 (as amended): binding the pagination parameters never fails:
    [BindPagination] has no error path, and a malformed [page], [per_page],
    [order] or [is_disabled] binds page [1], per page [10], order [asc] and
    [false]; includes that are not allowed or not well-formed are dropped;
    and a sort name that is not a valid sort field is dropped in favour of
    the filter's default sort. A filter's own typed query fields are bound
    by [ShouldBindQuery], however: the query-layer helper answers [400] with
    [nil] data and zero pagination exactly when that binding fails, which on
    the example [ProvinceFilter] happens exactly when the first [id] value is
    non-empty and not an [int] (such as [id=abc]). *)
Theorem binding_rejects_only_filter_fields (ind : Z) :
  (forall ctx : Context,
     1 <= Page (BindPagination ctx) /\ 1 <= PerPage (BindPagination ctx) <= 100 /\
     (Order (BindPagination ctx) = "asc"%string \/ Order (BindPagination ctx) = "desc"%string) /\
     ((forall n : Z, GoStr.Atoi (Query ctx "page") = Some n -> n <= 0) ->
      Page (BindPagination ctx) = 1) /\
     ((forall n : Z, GoStr.Atoi (Query ctx "per_page") = Some n -> n <= 0 \/ 100 < n) ->
      PerPage (BindPagination ctx) = 10) /\
     (Query ctx "order" <> "asc"%string -> Query ctx "order" <> "desc"%string ->
      Order (BindPagination ctx) = "asc"%string) /\
     (~ In (GoStr.ToLower (Query ctx "is_disabled")) ["1"; "true"; "yes"; "y"; "on"]%string ->
      IsDisabled (BindPagination ctx) = false)) /\
  (forall (allowed : gmap string bool) (includes : list string) (x : string),
     In x (ValidateIncludesSecure allowed includes) ->
     In x includes /\ map_index allowed x = true /\ isValidInclude x = true) /\
  (forall (σ : Type) (F : Filterable σ) (dialect : DatabaseDialect) (db : DB) (s : σ)
     (p : PaginationRequest.t) (includes : list string),
     isValidSortField (Sort p) = false ->
     db_order (fetch_query F dialect db s p includes)
     = db_order (count_query F dialect db s p) ++ [GetDefaultSort F s]) /\
  (forall (T σ : Type) (ctx : Context) (F : Filterable σ) (s : σ) (message : string)
     (queryFunc : σ -> list T * Z * option string),
     (PaginatedResponse.Code (PaginatedAPIResponseWithQueryLayer ind ctx F s message queryFunc)
      = 400 <->
      exists err, ShouldBindQuery F ctx
        (match BindPaginationMethod F with Some bind => bind ctx s | None => s end) = inl err) /\
     (forall err : string,
        ShouldBindQuery F ctx
          (match BindPaginationMethod F with Some bind => bind ctx s | None => s end) = inl err ->
        PaginatedAPIResponseWithQueryLayer ind ctx F s message queryFunc
        = NewPaginatedResponse 400 ("Invalid query parameters: " ++ err) None
            PaginationResponse.zero)) /\
  (forall (Quote : string -> string) (T : Type) (ctx : Context) (s : ProvinceFilter)
     (message : string) (queryFunc : ProvinceFilter -> list T * Z * option string),
     PaginatedResponse.Code
       (PaginatedAPIResponseWithQueryLayer ind ctx (ProvinceFilterable Quote) s message queryFunc)
     = 400 <->
     query_has (query_params ctx) "id" = true /\ Query ctx "id" <> ""%string /\
     GoStr.Atoi (Query ctx "id") = None).
Proof.
  split; [|split; [|split; [|split]]].
  - intros ctx.
    pose proof (BindFacts.bind_page ctx).
    pose proof (BindFacts.bind_per_page_range ctx).
    split; [assumption|]. split; [assumption|].
    split; [apply BindFacts.bind_order|].
    split; [apply bind_page_fallback|].
    split; [apply bind_per_page_fallback|].
    split; [apply bind_order_fallback|apply BindFacts.bind_is_disabled].
  - exact secure_member.
  - intros σ F dialect db s p includes Hs.
    unfold fetch_query. cbv zeta. rewrite preloads_keep_order.
    change (Sort (Validate p)) with (Sort p). rewrite Hs.
    destruct (IsDisabled (Validate p)); reflexivity.
  - intros T σ ctx F s message queryFunc.
    split; [apply query_layer_code_400|].
    intros err H. unfold PaginatedAPIResponseWithQueryLayer. rewrite H. reflexivity.
  - intros Quote T ctx s message queryFunc.
    rewrite query_layer_code_400.
    cbn [ShouldBindQuery BindPaginationMethod ProvinceFilterable].
    unfold ProvinceShouldBindQuery. cbv zeta.
    destruct (query_has (query_params ctx) "id").
    + destruct (bind_int Quote (Query ctx "id")) as [e|v] eqn:Hb.
      * split; [intros _; split; [reflexivity|] | intros _; exists e; reflexivity].
        apply (proj1 (bind_int_error Quote _)). exists e. exact Hb.
      * split; [intros [err H]; discriminate H|].
        intros [_ Hr]. apply (proj2 (bind_int_error Quote _)) in Hr. destruct Hr as [err Hr]. congruence.
    + split; [intros [err H]; discriminate H | intros [H _]; discriminate H].
Qed.

(** A malformed [id] on the example [ProvinceFilter] ([id=abc]) makes the
    query-layer helper answer [400] with status [error]. *)
Lemma query_layer_rejects_malformed_id :
  PaginatedResponse.Code
    (PaginatedAPIResponseWithQueryLayer (- 2 ^ 63) (mkContext [("id", "abc")]%string)
       (ProvinceFilterable quote_plain) EmptyProvinceFilter "ok"
       (fun _ => ([] : list Z, 0, None))) = 400 /\
  PaginatedResponse.Status
    (PaginatedAPIResponseWithQueryLayer (- 2 ^ 63) (mkContext [("id", "abc")]%string)
       (ProvinceFilterable quote_plain) EmptyProvinceFilter "ok"
       (fun _ => ([] : list Z, 0, None))) = "error"%string.
Proof. split; vm_compute; reflexivity. Qed.

(** C8 (the executor modelled from the spec): when the store fails at the
    count or at the fetch, the custom-filter helper returns the error with no
    rows and zero pagination, and its API form a [500] envelope with [nil]
    data and zero pagination; likewise the helpers built on a simple query
    builder ([PaginateModel], [PaginateWithIncludes], [PaginateWithFilter],
    [QuickPaginate]) and their API forms. *)
Theorem store_error_aborts {T σ : Type} (ind : Z) (dialect : DatabaseDialect)
  (store : Store T) (db : DB) (ctx : Context) (message err : string) :
  (forall (F : Filterable σ) (s s' : σ),
     ShouldBindQuery F ctx
       (match BindPaginationMethod F with Some bind => bind ctx s | None => s end) = inr s' ->
     (Count store (count_query F dialect db s' (GetPagination F s')) = inl err \/
      exists total, Count store (count_query F dialect db s' (GetPagination F s')) = inr total /\
        Find store (fetch_query F dialect db s' (GetPagination F s') (GetIncludes F s'))
        = inl err) ->
     PaginateWithCustomFilter ind dialect store db ctx F s
     = ([], PaginationResponse.zero, Some err) /\
     PaginatedAPIResponseWithCustomFilter ind dialect store db ctx F s message
     = NewPaginatedResponse 500 (internal_error err) None PaginationResponse.zero) /\
  (forall (builder : Filterable unit) (includes : list string),
     (Count store (count_query builder dialect db tt (BindPagination ctx)) = inl err \/
      exists total, Count store (count_query builder dialect db tt (BindPagination ctx))
                    = inr total /\
        Find store (fetch_query builder dialect db tt (BindPagination ctx) includes)
        = inl err) ->
     paginate_simple ind dialect store db ctx builder includes
     = ([], PaginationResponse.zero, Some err) /\
     api_response message (paginate_simple ind dialect store db ctx builder includes)
     = NewPaginatedResponse 500 (internal_error err) None PaginationResponse.zero).
Proof.
  split.
  - intros F s s' Hb Hst.
    assert (Hq : PaginateWithCustomFilter ind dialect store db ctx F s
                 = ([], PaginationResponse.zero, Some err)).
    { unfold PaginateWithCustomFilter. rewrite Hb. unfold PaginatedQuery.
      destruct Hst as [Hc | (total & Hc & Hf)]; rewrite Hc; [reflexivity|].
      rewrite Hf. reflexivity. }
    split; [exact Hq|].
    unfold PaginatedAPIResponseWithCustomFilter. rewrite Hq. reflexivity.
  - intros builder includes Hst.
    assert (Hq : paginate_simple ind dialect store db ctx builder includes
                 = ([], PaginationResponse.zero, Some err)).
    { unfold paginate_simple, PaginatedQuery.
      destruct Hst as [Hc | (total & Hc & Hf)]; rewrite Hc; [reflexivity|].
      rewrite Hf. reflexivity. }
    split; [exact Hq|]. rewrite Hq. reflexivity.
Qed.

End HelperFacts.

(* ================================================================== *)
(** * Instances of the hypotheses *)

Module Witnesses.

Lemma bind_per_page_capped_witness :
  GoStr.Atoi "250" = Some 250 /\
  PerPage (BindPagination (mkContext [("per_page", "250")]%string)) = 10.
Proof.
  split; [reflexivity|].
  apply (proj2 (BindFacts.bind_per_page_capped (mkContext [("per_page", "250")]%string)) 250);
    [reflexivity | lia].
Defined.

Lemma calculate_max_page_ceil_witness :
  (0 <= 25 <= 2 ^ 53 /\ 1 <= 10 < 2 ^ 63 /\
   IsDisabled (PaginationRequest.mk 1 10 "" "" "asc" false) = false) /\
  PaginationResponse.MaxPage
    (CalculatePagination (- 2 ^ 63) (PaginationRequest.mk 1 10 "" "" "asc" false) 25) = 3.
Proof.
  split; [split; [lia | split; [lia | reflexivity]]|].
  rewrite (CalcFacts.calculate_max_page_ceil (- 2 ^ 63)
             (PaginationRequest.mk 1 10 "" "" "asc" false) 25);
    cbn; [reflexivity | lia | lia | reflexivity].
Defined.

Lemma calculate_disabled_or_empty_witness :
  CalculatePagination (- 2 ^ 63) (PaginationRequest.mk 7 20 "" "" "asc" true) 42
  = PaginationResponse.mk 1 42 1 42 true /\
  PaginationResponse.MaxPage
    (CalculatePagination (- 2 ^ 63) (PaginationRequest.mk 3 (- 5) "" "" "asc" false) 0) = 1.
Proof.
  split.
  - apply (proj1 (CalcFacts.calculate_disabled_or_empty (- 2 ^ 63))). reflexivity.
  - apply (proj2 (CalcFacts.calculate_disabled_or_empty (- 2 ^ 63))).
    right. cbn. lia.
Defined.

Lemma validate_normalizes_witness :
  Page (PaginationRequest.mk 0 0 "" "" "" false) <= 0 /\
  Page (Validate (PaginationRequest.mk 0 0 "" "" "" false)) = 1.
Proof.
  split; [cbn; lia|].
  apply (BindFacts.validate_normalizes (PaginationRequest.mk 0 0 "" "" "" false)).
  cbn; lia.
Defined.

Lemma search_clause_binds_term_witness :
  ["name"; "code"]%string <> [] /\
  CreateSearchableFilter ["name"; "code"]%string PostgreSQL
    (mkDB "provinces" [] [] None None []) "jawa"
  = Where (mkDB "provinces" [] [] None None []) "(name ILIKE ? OR code ILIKE ?)"
      [ArgStr "%jawa%"; ArgStr "%jawa%"].
Proof.
  split; [discriminate|].
  rewrite (SearchFacts.search_clause_binds_term ["name"; "code"]%string PostgreSQL
             (mkDB "provinces" [] [] None None []) ltac:(discriminate) "jawa"
             ltac:(discriminate)).
  reflexivity.
Defined.

Lemma search_clause_identity_witness :
  ("" = ""%string) /\
  CreateSearchableFilter ["name"]%string MySQL (mkDB "provinces" [] [] None None []) ""
  = mkDB "provinces" [] [] None None [].
Proof.
  split; [reflexivity|].
  apply SearchFacts.search_clause_identity. right. reflexivity.
Defined.

Lemma binding_rejects_only_filter_fields_witness :
  ShouldBindQuery (ProvinceFilterable quote_plain) (mkContext [("id", "abc")]%string)
    (BaseFilterBindPagination (mkContext [("id", "abc")]%string) EmptyProvinceFilter)
  = inl ("strconv.ParseInt: parsing " ++ quote_plain "abc" ++ ": invalid syntax")%string /\
  PaginatedAPIResponseWithQueryLayer (- 2 ^ 63) (mkContext [("id", "abc")]%string)
    (ProvinceFilterable quote_plain) EmptyProvinceFilter "ok" (fun _ => ([] : list Z, 0, None))
  = NewPaginatedResponse 400
      ("Invalid query parameters: " ++
       "strconv.ParseInt: parsing " ++ quote_plain "abc" ++ ": invalid syntax")
      None PaginationResponse.zero /\
  PaginatedResponse.Code
    (PaginatedAPIResponseWithQueryLayer (- 2 ^ 63) (mkContext [("id", "abc")]%string)
       (ProvinceFilterable quote_plain) EmptyProvinceFilter "ok"
       (fun _ => ([] : list Z, 0, None))) = 400.
Proof.
  assert (H : ShouldBindQuery (ProvinceFilterable quote_plain) (mkContext [("id", "abc")]%string)
    (BaseFilterBindPagination (mkContext [("id", "abc")]%string) EmptyProvinceFilter)
    = inl ("strconv.ParseInt: parsing " ++ quote_plain "abc" ++ ": invalid syntax")%string)
    by (vm_compute; reflexivity).
  split; [exact H|]. split.
  - exact (proj2
             (proj1 (proj2 (proj2 (proj2
                (HelperFacts.binding_rejects_only_filter_fields (- 2 ^ 63)))))
                Z ProvinceFilter (mkContext [("id", "abc")]%string)
                (ProvinceFilterable quote_plain) EmptyProvinceFilter "ok"
                (fun _ => ([] : list Z, 0, None)))
             _ H).
  - apply (proj2
             (proj2 (proj2 (proj2 (proj2
                (HelperFacts.binding_rejects_only_filter_fields (- 2 ^ 63)))))
                quote_plain Z (mkContext [("id", "abc")]%string) EmptyProvinceFilter "ok"
                (fun _ => ([] : list Z, 0, None)))).
    split; [reflexivity|]. split; [intros He; vm_compute in He; discriminate He|].
    reflexivity.
Defined.

Definition failing_store : Store Z :=
  mkStore Z (fun _ => inl "connection refused"%string) (fun _ => inr []).

Definition empty_db : DB := mkDB "" [] [] None None [].

Lemma store_error_aborts_witness :
  ShouldBindQuery (ProvinceFilterable quote_plain) (mkContext [])
    (BaseFilterBindPagination (mkContext []) EmptyProvinceFilter)
  = inr (BaseFilterBindPagination (mkContext []) EmptyProvinceFilter) /\
  Count failing_store
    (count_query (ProvinceFilterable quote_plain) MySQL empty_db
       (BaseFilterBindPagination (mkContext []) EmptyProvinceFilter)
       (GetPagination (ProvinceFilterable quote_plain)
          (BaseFilterBindPagination (mkContext []) EmptyProvinceFilter)))
  = inl "connection refused"%string /\
  PaginatedAPIResponseWithCustomFilter (- 2 ^ 63) MySQL failing_store empty_db
    (mkContext []) (ProvinceFilterable quote_plain) EmptyProvinceFilter "ok"
  = NewPaginatedResponse 500 (internal_error "connection refused") None
      PaginationResponse.zero.
Proof.
  assert (Hb : ShouldBindQuery (ProvinceFilterable quote_plain) (mkContext [])
    (BaseFilterBindPagination (mkContext []) EmptyProvinceFilter)
    = inr (BaseFilterBindPagination (mkContext []) EmptyProvinceFilter))
    by (vm_compute; reflexivity).
  assert (Hc : Count failing_store
    (count_query (ProvinceFilterable quote_plain) MySQL empty_db
       (BaseFilterBindPagination (mkContext []) EmptyProvinceFilter)
       (GetPagination (ProvinceFilterable quote_plain)
          (BaseFilterBindPagination (mkContext []) EmptyProvinceFilter)))
    = inl "connection refused"%string) by reflexivity.
  split; [exact Hb|]. split; [exact Hc|].
  exact (proj2 (proj1 (HelperFacts.store_error_aborts (- 2 ^ 63) MySQL failing_store
                         empty_db (mkContext []) "ok" "connection refused")
                  (ProvinceFilterable quote_plain) EmptyProvinceFilter _ Hb (or_introl Hc))).
Defined.

Lemma calculate_copies_page_witness :
  IsDisabled (PaginationRequest.mk 9 25 "" "" "desc" false) = false /\
  PaginationResponse.Page
    (CalculatePagination (- 2 ^ 63) (PaginationRequest.mk 9 25 "" "" "desc" false) 30) = 9.
Proof.
  split; [reflexivity|].
  apply (proj1 (CalcFacts.calculate_copies_page (- 2 ^ 63))). reflexivity.
Defined.

End Witnesses.

(* ================================================================== *)
(** * Further properties of the code *)

Module CodeFacts.

Ltac z_cases :=
  repeat match goal with
  | |- context [?a <=? ?b] => destruct (Z.leb_spec a b)
  | |- context [?a <? ?b] => destruct (Z.ltb_spec a b)
  end.

(** The order [Validate()] settles on. *)
Lemma validate_order (o : string) :
  (let o1 := if String.eqb o "" then "asc"%string else o in
   if negb (String.eqb o1 "asc") && negb (String.eqb o1 "desc") then "asc"%string else o1)
  = (if String.eqb o "desc" then "desc" else "asc")%string.
Proof.
  destruct (String.eqb_spec o "") as [->|H0]; [reflexivity|].
  cbv beta iota zeta.
  destruct (String.eqb_spec o "asc") as [->|Ha]; [reflexivity|].
  destruct (String.eqb_spec o "desc") as [->|Hd]; reflexivity.
Qed.

Lemma validate_eq (p : PaginationRequest.t) :
  Validate p
  = PaginationRequest.mk (if Page p <=? 0 then 1 else Page p)
      (if PerPage p <=? 0 then 10 else PerPage p) (Search p) (Sort p)
      (if String.eqb (Order p) "desc" then "desc" else "asc")%string (IsDisabled p).
Proof. unfold Validate. rewrite <- validate_order. reflexivity. Qed.

(** X1: [Validate()] is idempotent, and the request [BindPagination] returns
    is already normalized: validating it again changes nothing. *)
Theorem validate_idempotent :
  (forall p : PaginationRequest.t, Validate (Validate p) = Validate p) /\
  (forall ctx : Context, Validate (BindPagination ctx) = BindPagination ctx).
Proof.
  assert (H : forall p, Validate (Validate p) = Validate p).
  { intros p. rewrite (validate_eq p), validate_eq. cbn [Page PerPage Search Sort Order IsDisabled].
    f_equal.
    - destruct (Z.leb_spec (Page p) 0); z_cases; lia.
    - destruct (Z.leb_spec (PerPage p) 0); z_cases; lia.
    - destruct (String.eqb (Order p) "desc"); reflexivity. }
  split; [exact H|]. intros ctx. unfold BindPagination. apply H.
Qed.


Lemma Atoi_range (s : string) (n : Z) : GoStr.Atoi s = Some n -> - 2 ^ 63 <= n < 2 ^ 63.
Proof.
  unfold GoStr.Atoi. cbv zeta.
  match goal with |- (match ?r with Some v => _ | None => _ end = Some n -> _) =>
    destruct r as [v|] end; [|discriminate].
  unfold GoStr.in_int64.
  destruct (Z.leb_spec (- 2 ^ 63) v), (Z.ltb_spec v (2 ^ 63)); cbn; intros Heq;
    try discriminate; injection Heq as <-; lia.
Qed.

(** X2: the bound [Page] is the first [page] value when it parses as a
    positive [int], and 1 otherwise; no upper bound is applied beyond the
    range of [int] (unlike [per_page]). *)
Theorem bind_page_value (ctx : Context) :
  Page (BindPagination ctx)
  = match GoStr.Atoi (Query ctx "page") with Some n => if 0 <? n then n else 1 | None => 1 end /\
  1 <= Page (BindPagination ctx) < 2 ^ 63.
Proof.
  assert (E : Page (BindPagination ctx)
    = match GoStr.Atoi (Query ctx "page") with Some n => if 0 <? n then n else 1 | None => 1 end).
  { unfold BindPagination. rewrite validate_eq. cbn [Page]. cbv zeta.
    destruct (String.eqb_spec (Query ctx "page") "") as [He|He].
    - rewrite He. reflexivity.
    - cbn [negb]. destruct (GoStr.Atoi (Query ctx "page")) as [v|]; [|reflexivity].
      destruct (Z.ltb_spec 0 v); cbn; z_cases; lia. }
  split; [exact E|]. rewrite E.
  destruct (GoStr.Atoi (Query ctx "page")) as [v|] eqn:Ha; [|lia].
  apply Atoi_range in Ha. destruct (Z.ltb_spec 0 v); lia.
Qed.

(** X3: paging is disabled exactly when the first [is_disabled] value,
    lower-cased, is one of [1], [true], [yes], [y], [on]. *)
Theorem bind_is_disabled_iff (ctx : Context) :
  IsDisabled (BindPagination ctx) = true <->
  In (GoStr.ToLower (Query ctx "is_disabled")) ["1"; "true"; "yes"; "y"; "on"]%string.
Proof.
  unfold BindPagination. rewrite validate_eq. cbn [IsDisabled]. cbv zeta.
  destruct (String.eqb_spec (Query ctx "is_disabled") "") as [He|He].
  - rewrite He. cbn. split; [discriminate|].
    intros [H|[H|[H|[H|[H|[]]]]]]; discriminate.
  - cbn [negb]. split.
    + apply BindFacts.is_disabled_words.
    + intros [H|[H|[H|[H|[H|[]]]]]]; rewrite <- H; reflexivity.
Qed.

(** X4: [Search] and [Sort] are the first [search] and [sort] values as
    sent, unchanged; [Order] is [desc] exactly when the first [order] value is
    the string [desc] (case-sensitive), and [asc] otherwise. *)
Theorem bind_search_sort_order (ctx : Context) :
  Search (BindPagination ctx) = Query ctx "search" /\
  Sort (BindPagination ctx) = Query ctx "sort" /\
  Order (BindPagination ctx)
  = (if String.eqb (Query ctx "order") "desc" then "desc" else "asc")%string.
Proof.
  unfold BindPagination. rewrite validate_eq. cbn [Search Sort Order]. cbv zeta.
  split; [reflexivity|]. split; [reflexivity|].
  destruct (String.eqb_spec (Query ctx "order") "desc") as [Hd|Hd];
    [rewrite Hd; reflexivity|].
  destruct (String.eqb_spec (Query ctx "order") "asc") as [Ha|Ha];
    [rewrite Ha; reflexivity | reflexivity].
Qed.

Lemma lookup_query_app (ps1 ps2 : list (string * string)) (key : string) :
  (forall v, ~ In (key, v) ps1) -> lookup_query (ps1 ++ ps2) key = lookup_query ps2 key.
Proof.
  induction ps1 as [|[k v] ps1 IH]; intros H; [reflexivity|].
  cbn. destruct (String.eqb_spec k key) as [->|Hk].
  - exfalso. apply (H v). left. reflexivity.
  - apply IH. intros v' Hin. apply (H v'). right. exact Hin.
Qed.

(** X5: [BindPagination] reads only the keys [page], [per_page], [search],
    [sort], [order] and [is_disabled]: query parameters with other keys put
    in front of a query string do not change the bound request. *)
Theorem bind_reads_only_its_keys (ps1 ps2 : list (string * string)) :
  (forall k v, In (k, v) ps1 ->
     ~ In k ["page"; "per_page"; "search"; "sort"; "order"; "is_disabled"]%string) ->
  BindPagination (mkContext (ps1 ++ ps2)) = BindPagination (mkContext ps2).
Proof.
  intros H.
  assert (L : forall key,
    In key ["page"; "per_page"; "search"; "sort"; "order"; "is_disabled"]%string ->
    lookup_query (ps1 ++ ps2) key = lookup_query ps2 key).
  { intros key Hk. apply lookup_query_app. intros v Hin. exact (H key v Hin Hk). }
  unfold BindPagination, Query. cbn [query_params].
  rewrite !L by (cbn; repeat first [left; reflexivity | right]).
  reflexivity.
Qed.

Lemma wrap64_small (z : Z) : - 2 ^ 63 <= z < 2 ^ 63 -> wrap64 z = z.
Proof. intros H. unfold wrap64. rewrite Z.mod_small by lia. lia. Qed.

Lemma wrap64_over (z : Z) : 2 ^ 63 <= z < 2 ^ 64 -> wrap64 z = z - 2 ^ 64.
Proof.
  intros H. unfold wrap64.
  rewrite <- (Z.mod_unique (z + 2 ^ 63) (2 ^ 64) 1 (z + 2 ^ 63 - 2 ^ 64)); lia.
Qed.

(** X6: for [Page >= 1], [PerPage >= 0] and [Page * PerPage < 2^63],
    [GetOffset] returns [(Page - 1) * PerPage >= 0] and leaves the receiver
    as it is, and the next page starts exactly [PerPage] rows further. *)
Theorem get_offset_in_range (p : PaginationRequest.t) :
  1 <= Page p -> 0 <= PerPage p -> Page p * PerPage p < 2 ^ 63 ->
  GetOffsetMethod p = ((Page p - 1) * PerPage p, p) /\
  0 <= fst (GetOffsetMethod p) /\
  fst (GetOffsetMethod
         (PaginationRequest.mk (Page p + 1) (PerPage p) (Search p) (Sort p) (Order p)
            (IsDisabled p)))
  = fst (GetOffsetMethod p) + PerPage p.
Proof.
  intros H1 H2 H3.
  assert (E : GetOffsetMethod p = ((Page p - 1) * PerPage p, p)).
  { unfold GetOffsetMethod. destruct (Z.leb_spec (Page p) 0); [lia|].
    cbv beta iota zeta. rewrite wrap64_small by nia. reflexivity. }
  split; [exact E|]. rewrite E. cbn [fst]. split; [nia|].
  unfold GetOffsetMethod. cbn [Page PerPage].
  destruct (Z.leb_spec (Page p + 1) 0); [lia|].
  cbv beta iota zeta. cbn [Page PerPage].
  rewrite wrap64_small by nia. cbn [fst]. ring.
Qed.

(** X7: [GetOffset] does not guard its multiplication: when
    [2^63 <= (Page - 1) * PerPage < 2^64] (reachable from [BindPagination],
    which accepts any positive [int] page) the offset wraps to a negative
    value. *)
Theorem get_offset_wraps (p : PaginationRequest.t) :
  1 <= Page p -> 2 ^ 63 <= (Page p - 1) * PerPage p < 2 ^ 64 ->
  fst (GetOffsetMethod p) = (Page p - 1) * PerPage p - 2 ^ 64 /\ fst (GetOffsetMethod p) < 0.
Proof.
  intros H1 H2. unfold GetOffsetMethod.
  destruct (Z.leb_spec (Page p) 0); [lia|].
  cbv beta iota zeta. cbn [fst]. rewrite wrap64_over by lia. lia.
Qed.

(** X8: calling [GetOffset] then [GetLimit] clamps the receiver's [Page] and
    [PerPage] as [Validate()] does, and leaves [Order] (which [Validate()]
    normalizes) and the other fields alone; [GetLimit] returns the validated
    [PerPage], and [GetOffset] returns 0 for [Page <= 0]. *)
Theorem getters_clamp_like_validate (p : PaginationRequest.t) :
  snd (GetLimitMethod (snd (GetOffsetMethod p)))
  = PaginationRequest.mk (Page (Validate p)) (PerPage (Validate p)) (Search p) (Sort p)
      (Order p) (IsDisabled p) /\
  fst (GetLimitMethod p) = PerPage (Validate p) /\
  (Page p <= 0 -> fst (GetOffsetMethod p) = 0).
Proof.
  destruct p as [pg pp se so o d].
  unfold GetLimitMethod, GetOffsetMethod, Validate. cbn.
  split; [|split].
  - destruct (Z.leb_spec pg 0); cbn; destruct (Z.leb_spec pp 0); reflexivity.
  - destruct (Z.leb_spec pp 0); reflexivity.
  - intros H. destruct (Z.leb_spec pg 0); [reflexivity|lia].
Qed.

Lemma ceil_bounds (n d : Z) :
  1 <= n -> 1 <= d -> ((n + d - 1) / d - 1) * d < n <= (n + d - 1) / d * d.
Proof.
  intros Hn Hd.
  pose proof (Z.div_mod (n + d - 1) d ltac:(lia)).
  pose proof (Z.mod_pos_bound (n + d - 1) d ltac:(lia)).
  nia.
Qed.

(** X9: for [1 <= total <= 2^53] rows, a request with [1 <= PerPage <= 100]
    and paging enabled, the page [MaxPage] reported by [CalculatePagination]
    starts below [total] (it is not empty) and the page after it starts at or
    past [total] (it is empty). *)
Theorem last_page_window (ind : Z) (p : PaginationRequest.t) (total : Z) :
  1 <= total <= 2 ^ 53 -> 1 <= PerPage p <= 100 -> IsDisabled p = false ->
  let m := PaginationResponse.MaxPage (CalculatePagination ind p total) in
  fst (GetOffsetMethod
         (PaginationRequest.mk m (PerPage p) (Search p) (Sort p) (Order p) (IsDisabled p)))
  < total <=
  fst (GetOffsetMethod
         (PaginationRequest.mk (m + 1) (PerPage p) (Search p) (Sort p) (Order p)
            (IsDisabled p))).
Proof.
  intros Ht Hd Hdis m.
  assert (Hm : m = (total + PerPage p - 1) / PerPage p).
  { unfold m, CalculatePagination. rewrite Hdis. cbv zeta. cbn [PaginationResponse.MaxPage].
    rewrite FloatFacts.maxpage_core by lia.
    pose proof (CalcFacts.ceil_div_pos total (PerPage p) ltac:(lia) ltac:(lia)).
    destruct (Z.eqb_spec ((total + PerPage p - 1) / PerPage p) 0); lia. }
  clearbody m.
  pose proof (CalcFacts.ceil_div_pos total (PerPage p) ltac:(lia) ltac:(lia)) as Hpos.
  pose proof (ceil_bounds total (PerPage p) ltac:(lia) ltac:(lia)) as [Hlo Hhi].
  rewrite <- Hm in Hpos, Hlo, Hhi.
  unfold GetOffsetMethod. cbn [Page PerPage].
  destruct (Z.leb_spec m 0); [lia|]. destruct (Z.leb_spec (m + 1) 0); [lia|].
  cbv beta iota zeta. cbn [fst Page PerPage].
  rewrite !wrap64_small by nia. nia.
Qed.

(** X10: [PaginatedAPIResponseWithQueryLayer] returns either a [200]
    success envelope with the caller's message and non-nil data, or a [400]
    or [500] error envelope with [nil] data and zero pagination. *)
Theorem query_layer_envelope {T σ : Type} (ind : Z) (ctx : Context) (F : Filterable σ)
  (s : σ) (message : string) (queryFunc : σ -> list T * Z * option string) :
  success_envelope message (PaginatedAPIResponseWithQueryLayer ind ctx F s message queryFunc) \/
  error_envelope [400; 500] (PaginatedAPIResponseWithQueryLayer ind ctx F s message queryFunc).
Proof.
  unfold PaginatedAPIResponseWithQueryLayer.
  match goal with |- context [ShouldBindQuery F ctx ?x] =>
    destruct (ShouldBindQuery F ctx x) as [err|s'] end.
  - right. cbn. split; [left; reflexivity | split; [reflexivity | split; reflexivity]].
  - destruct (PaginatedQueryWithQueryLayer F s' queryFunc) as [s'' [[data total] [err|]]].
    + right. cbn. split; [right; left; reflexivity | split; [reflexivity | split; reflexivity]].
    + left. cbn. split; [reflexivity | split; [reflexivity | split; [reflexivity | discriminate]]].
Qed.

(** X11: [api_response] (the tail of [PaginatedAPIResponse] and
    [PaginatedAPIResponseWithIncludes]) wraps a result without error in a
    [200] success envelope carrying its rows and metadata, and a result with
    an error in a [500] error envelope; [PaginatedAPIResponseWithCustomFilter]
    likewise only ever answers [200] or [500], binding errors included. *)
Theorem helper_envelopes {T σ : Type} (ind : Z) (dialect : DatabaseDialect) :
  (forall (message : string) (r : list T * PaginationResponse.t * option string),
     (snd r = None ->
        success_envelope message (api_response message r) /\
        PaginatedResponse.Data (api_response message r) = Some (fst (fst r)) /\
        PaginatedResponse.Pagination (api_response message r) = snd (fst r)) /\
     (snd r <> None -> error_envelope [500] (api_response message r))) /\
  (forall (store : Store T) (db : DB) (ctx : Context) (F : Filterable σ) (s : σ)
     (message : string),
     success_envelope message (PaginatedAPIResponseWithCustomFilter ind dialect store db ctx F s message) \/
     error_envelope [500] (PaginatedAPIResponseWithCustomFilter ind dialect store db ctx F s message)).
Proof.
  split.
  - intros message [[data pr] [err|]]; cbn [snd fst]; split; intros H.
    + discriminate H.
    + cbn. split; [left; reflexivity | split; [reflexivity | split; reflexivity]].
    + cbn. split; [split; [reflexivity | split; [reflexivity | split; [reflexivity | discriminate]]]|].
      split; reflexivity.
    + contradiction.
  - intros store db ctx F s message. unfold PaginatedAPIResponseWithCustomFilter.
    destruct (PaginateWithCustomFilter ind dialect store db ctx F s) as [[data pr] [err|]].
    + right. cbn. split; [left; reflexivity | split; [reflexivity | split; reflexivity]].
    + left. cbn. split; [reflexivity | split; [reflexivity | split; [reflexivity | discriminate]]].
Qed.


Lemma fold_plain_filter (m : gmap string bool) (l acc : list string) :
  fold_left
    (fun validIncludes include =>
       if map_index m include then validIncludes ++ [include] else validIncludes) l acc
  = acc ++ List.filter (map_index m) l.
Proof.
  revert acc. induction l as [|x l IH]; intros acc; cbn.
  - rewrite app_nil_r. reflexivity.
  - rewrite IH. destruct (map_index m x); [rewrite <- app_assoc|]; reflexivity.
Qed.

Lemma plain_filter (m : gmap string bool) (l : list string) :
  ValidateIncludesPlain m l = List.filter (map_index m) l.
Proof. unfold ValidateIncludesPlain. apply fold_plain_filter. Qed.

Lemma fold_secure_filter (m : gmap string bool) (l acc : list string) :
  fold_left
    (fun validIncludes include =>
       if map_index m include then
         if isValidInclude include then validIncludes ++ [include] else validIncludes
       else validIncludes) l acc
  = acc ++ List.filter (fun x => map_index m x && isValidInclude x) l.
Proof.
  revert acc. induction l as [|x l IH]; intros acc; cbn.
  - rewrite app_nil_r. reflexivity.
  - rewrite IH. destruct (map_index m x), (isValidInclude x); cbn;
      try rewrite <- app_assoc; reflexivity.
Qed.

Lemma secure_filter (m : gmap string bool) (l : list string) :
  ValidateIncludesSecure m l = List.filter (fun x => map_index m x && isValidInclude x) l.
Proof. unfold ValidateIncludesSecure. apply fold_secure_filter. Qed.

Lemma filter_idem {A} (f : A -> bool) (l : list A) :
  List.filter f (List.filter f l) = List.filter f l.
Proof.
  induction l as [|x l IH]; cbn; [reflexivity|].
  destruct (f x) eqn:E; cbn; [rewrite E, IH|]; auto.
Qed.

(** X12: include validation, plain (the example filters) or secure (the
    README filter), is idempotent, and decides each requested name on its
    own: validating a concatenation of requests is the concatenation of the
    validated requests. *)
Theorem include_validation_idempotent (m : gmap string bool) (l1 l2 : list string) :
  ValidateIncludesPlain m (ValidateIncludesPlain m l1) = ValidateIncludesPlain m l1 /\
  ValidateIncludesSecure m (ValidateIncludesSecure m l1) = ValidateIncludesSecure m l1 /\
  ValidateIncludesPlain m (l1 ++ l2) = ValidateIncludesPlain m l1 ++ ValidateIncludesPlain m l2 /\
  ValidateIncludesSecure m (l1 ++ l2)
  = ValidateIncludesSecure m l1 ++ ValidateIncludesSecure m l2.
Proof.
  rewrite !plain_filter, !secure_filter.
  split; [apply filter_idem|]. split; [apply filter_idem|].
  split; apply List.filter_app.
Qed.

Lemma province_index (x : string) :
  map_index ProvinceAllowedIncludes x = String.eqb x "Athletes".
Proof.
  unfold map_index.
  change ProvinceAllowedIncludes with (<["Athletes" := true]> (∅ : gmap string bool)).
  destruct (String.eqb_spec x "Athletes") as [->|Hne].
  - rewrite lookup_insert_eq. reflexivity.
  - rewrite lookup_insert_ne by congruence. rewrite lookup_empty. reflexivity.
Qed.

(** X13: with the example [ProvinceFilter], the query layer hands the query
    function the filter with its includes reduced to the [Athletes] entries,
    in order, every other field unchanged, and returns the query function's
    result for it. *)
Theorem query_layer_province_includes {T : Type} (Quote : string -> string)
  (s : ProvinceFilter) (queryFunc : ProvinceFilter -> list T * Z * option string) :
  snd (PaginatedQueryWithQueryLayer (ProvinceFilterable Quote) s queryFunc)
  = queryFunc (fst (PaginatedQueryWithQueryLayer (ProvinceFilterable Quote) s queryFunc)) /\
  fst (PaginatedQueryWithQueryLayer (ProvinceFilterable Quote) s queryFunc)
  = mkProvinceFilter (pf_Pagination s)
      (List.filter (fun x => String.eqb x "Athletes") (pf_Includes s))
      (pf_ID s) (pf_Name s) (pf_Code s).
Proof.
  split; [reflexivity|]. cbn. rewrite plain_filter.
  rewrite (List.filter_ext _ _ province_index). reflexivity.
Qed.

(** X14: the query-layer API helper is [BindAndValidateFilter] followed by
    the query function: a binding error from [BindAndValidateFilter] is the
    [400] answer, otherwise the query function runs on the filter
    [BindAndValidateFilter] produced, and its error or rows give the [500] or
    [200] answer, with metadata from that filter's pagination. *)
Theorem query_layer_is_bind_and_validate {T σ : Type} (ind : Z) (ctx : Context)
  (F : Filterable σ) (s : σ) (message : string)
  (queryFunc : σ -> list T * Z * option string) :
  PaginatedAPIResponseWithQueryLayer ind ctx F s message queryFunc
  = match BindAndValidateFilter ctx F s with
    | inl err =>
        NewPaginatedResponse 400 ("Invalid query parameters: " ++ err)%string None
          PaginationResponse.zero
    | inr s' =>
        match queryFunc s' with
        | (_, _, Some err) =>
            NewPaginatedResponse 500 (internal_error err) None PaginationResponse.zero
        | (data, total, None) =>
            NewPaginatedResponse 200 message (Some data)
              (CalculatePagination ind (GetPagination F s') total)
        end
    end.
Proof.
  unfold PaginatedAPIResponseWithQueryLayer, BindAndValidateFilter,
    PaginatedQueryWithQueryLayer.
  match goal with |- context [ShouldBindQuery F ctx ?x] =>
    destruct (ShouldBindQuery F ctx x) as [err|s'] end; [reflexivity|].
  match goal with |- context [queryFunc ?x] =>
    destruct (queryFunc x) as [[data total] [err|]] end; reflexivity.
Qed.

(** X15: when [BindAndValidateFilter] succeeds on the example
    [ProvinceFilter], every include left on the filter is [Athletes]. *)
Theorem bind_and_validate_province (Quote : string -> string) (ctx : Context)
  (s s' : ProvinceFilter) :
  BindAndValidateFilter ctx (ProvinceFilterable Quote) s = inr s' ->
  Forall (fun x => x = "Athletes"%string) (pf_Includes s').
Proof.
  unfold BindAndValidateFilter. cbn [BindPaginationMethod ShouldBindQuery ValidateMethod
    ProvinceFilterable].
  destruct (ProvinceShouldBindQuery Quote ctx (BaseFilterBindPagination ctx s)) as [err|s0];
    [discriminate|].
  intros Heq. injection Heq as <-. cbn [pf_Includes]. rewrite plain_filter.
  apply List.Forall_forall. intros x Hx. apply List.filter_In in Hx.
  destruct Hx as [_ Hx]. rewrite province_index in Hx. apply String.eqb_eq. exact Hx.
Qed.

Lemma appends_refl (texts : list string) (q : DB) : only_appends_clauses texts q q.
Proof.
  exists []. split; [destruct q; cbn; rewrite app_nil_r; reflexivity | constructor].
Qed.

Lemma appends_where (texts : list string) (q q' : DB) (t : string) (a : Arg) :
  only_appends_clauses texts q q' -> In t texts ->
  only_appends_clauses texts q (Where q' t [a]).
Proof.
  intros [ws [-> Hws]] Ht. exists (ws ++ [(t, [a])]). split.
  - unfold Where. cbn. rewrite app_assoc. reflexivity.
  - apply List.Forall_app. split; [exact Hws|].
    constructor; [split; [exact Ht | reflexivity] | constructor].
Qed.

Ltac in_list := cbn; repeat first [left; reflexivity | right].
Ltac appends := repeat first [apply appends_refl | apply appends_where; [| in_list]].

(** X16: the example filters' [ApplyFilters] only append [Where] clauses,
    each with a fixed SQL text ([ProvinceFilter]: [id = ?], [name LIKE ?],
    [code = ?]; [SportFilter]: [id = ?], [name LIKE ?], [category = ?];
    [AthleteFilter]: [id = ?], [province_id = ?], [sport_id = ?]) and one
    bound argument, so filter values reach the statement only as arguments;
    table, order, limit, offset and preloads are untouched. [SportFilter]'s
    [IsActive] and [AthleteFilter]'s [EventID] never change the query. *)
Theorem apply_filters_only_append :
  (forall (f : ProvinceFilter) (q : DB),
     only_appends_clauses ["id = ?"; "name LIKE ?"; "code = ?"]%string q
       (ProvinceApplyFilters f q)) /\
  (forall (f : SportFilter) (q : DB),
     only_appends_clauses ["id = ?"; "name LIKE ?"; "category = ?"]%string q
       (SportApplyFilters f q)) /\
  (forall (f : AthleteFilter) (q : DB),
     only_appends_clauses ["id = ?"; "province_id = ?"; "sport_id = ?"]%string q
       (AthleteApplyFilters f q)) /\
  (forall (f : SportFilter) (q : DB) (b : bool),
     SportApplyFilters (mkSportFilter (sf_Pagination f) (sf_Includes f) (sf_ID f) (sf_Name f)
                          (sf_Category f) b) q
     = SportApplyFilters f q) /\
  (forall (f : AthleteFilter) (q : DB) (e : Z),
     AthleteApplyFilters (mkAthleteFilter (af_Pagination f) (af_Includes f) (af_ID f)
                            (af_ProvinceID f) (af_SportID f) e) q
     = AthleteApplyFilters f q).
Proof.
  split; [|split; [|split; [|split]]].
  - intros f q. unfold ProvinceApplyFilters.
    destruct (0 <? pf_ID f), (negb (String.eqb (pf_Name f) "")),
      (negb (String.eqb (pf_Code f) "")); cbv beta iota zeta; appends.
  - intros f q. unfold SportApplyFilters.
    destruct (0 <? sf_ID f), (negb (String.eqb (sf_Name f) "")),
      (negb (String.eqb (sf_Category f) "")); cbv beta iota zeta; appends.
  - intros f q. unfold AthleteApplyFilters.
    destruct (0 <? af_ID f), (0 <? af_ProvinceID f), (0 <? af_SportID f),
      (0 <? af_EventID f); cbv beta iota zeta; appends.
  - intros f q b. reflexivity.
  - intros f q e. unfold AthleteApplyFilters. cbn.
    destruct (0 <? e), (0 <? af_EventID f); reflexivity.
Qed.

Lemma count_app (a b : string) :
  count_placeholders (a ++ b) = (count_placeholders a + count_placeholders b)%nat.
Proof. induction a as [|c a IH]; simpl; [reflexivity|]. rewrite IH. lia. Qed.

Lemma count_join (l : list string) (sep : string) :
  count_placeholders sep = 0%nat -> (forall x, In x l -> count_placeholders x = 1%nat) ->
  count_placeholders (GoStr.Join l sep) = length l.
Proof.
  intros Hs. induction l as [|x [|y rest] IH]; intros Hl.
  - reflexivity.
  - cbn [GoStr.Join length]. apply Hl. left. reflexivity.
  - change (GoStr.Join (x :: y :: rest) sep) with (x ++ sep ++ GoStr.Join (y :: rest) sep)%string.
    rewrite !count_app, Hs, IH.
    + rewrite (Hl x (or_introl eq_refl)). reflexivity.
    + intros z Hz. apply Hl. right. exact Hz.
Qed.

(** X17: when no search field contains [?], [CreateSearchableFilter] either
    returns the query unchanged or appends one [Where] clause whose text has
    exactly as many [?] placeholders as it binds arguments, one per search
    field. *)
Theorem search_placeholders_match_args (fields : list string) (dialect : DatabaseDialect)
  (q : DB) (term : string) :
  (forall f, In f fields -> count_placeholders f = 0%nat) ->
  CreateSearchableFilter fields dialect q term = q \/
  exists (text : string) (args : list Arg),
    CreateSearchableFilter fields dialect q term = Where q text args /\
    count_placeholders text = length args /\ length args = length fields.
Proof.
  intros Hf. unfold CreateSearchableFilter.
  destruct ((length fields =? 0)%nat || String.eqb term "") eqn:E; [left; reflexivity|right].
  destruct fields as [|f [|g rest]].
  - discriminate E.
  - eexists; eexists; split; [reflexivity|].
    rewrite count_app, (Hf f (or_introl eq_refl)).
    split; [destruct dialect; reflexivity | reflexivity].
  - eexists; eexists; split; [reflexivity|].
    rewrite !count_app, count_join.
    + rewrite !List.length_map. split; [simpl; lia | reflexivity].
    + reflexivity.
    + intros x Hx. apply List.in_map_iff in Hx. destruct Hx as [y [<- Hy]].
      rewrite count_app, (Hf y Hy). destruct dialect; reflexivity.
Qed.

End CodeFacts.

(* ================================================================== *)
(** * Instances of the hypotheses of the further properties *)

Module CodeWitnesses.

Ltac zdec := first [apply Z.leb_le | apply Z.ltb_lt]; vm_compute; reflexivity.

Lemma bind_reads_only_its_keys_witness :
  (forall k v, In (k, v) [("name", "Jawa")]%string ->
     ~ In k ["page"; "per_page"; "search"; "sort"; "order"; "is_disabled"]%string) /\
  BindPagination (mkContext ([("name", "Jawa")]%string ++ [("page", "2")]%string))
  = BindPagination (mkContext [("page", "2")]%string).
Proof.
  assert (H : forall k v, In (k, v) [("name", "Jawa")]%string ->
     ~ In k ["page"; "per_page"; "search"; "sort"; "order"; "is_disabled"]%string).
  { intros k v [Hkv|[]]. injection Hkv as <- <-. cbn. intros Hin.
    repeat (destruct Hin as [Hin|Hin]; [discriminate Hin|]). exact Hin. }
  split; [exact H|].
  exact (CodeFacts.bind_reads_only_its_keys _ _ H).
Defined.

Lemma get_offset_in_range_witness :
  (1 <= Page (BindPagination (mkContext [("page", "3"); ("per_page", "10")]%string)) /\
   0 <= PerPage (BindPagination (mkContext [("page", "3"); ("per_page", "10")]%string)) /\
   Page (BindPagination (mkContext [("page", "3"); ("per_page", "10")]%string)) *
   PerPage (BindPagination (mkContext [("page", "3"); ("per_page", "10")]%string)) < 2 ^ 63) /\
  fst (GetOffsetMethod (BindPagination (mkContext [("page", "3"); ("per_page", "10")]%string)))
  = 20.
Proof.
  assert (H1 : 1 <= Page (BindPagination (mkContext [("page", "3"); ("per_page", "10")]%string)))
    by zdec.
  assert (H2 : 0 <= PerPage (BindPagination (mkContext [("page", "3"); ("per_page", "10")]%string)))
    by zdec.
  assert (H3 : Page (BindPagination (mkContext [("page", "3"); ("per_page", "10")]%string)) *
    PerPage (BindPagination (mkContext [("page", "3"); ("per_page", "10")]%string)) < 2 ^ 63)
    by zdec.
  split; [split; [exact H1 | split; [exact H2 | exact H3]]|].
  rewrite (proj1 (CodeFacts.get_offset_in_range _ H1 H2 H3)).
  vm_compute. reflexivity.
Defined.

Lemma get_offset_wraps_witness :
  (1 <= Page (BindPagination
                (mkContext [("page", "4611686018427387905"); ("per_page", "2")]%string)) /\
   2 ^ 63 <= (Page (BindPagination
                (mkContext [("page", "4611686018427387905"); ("per_page", "2")]%string)) - 1) *
             PerPage (BindPagination
                (mkContext [("page", "4611686018427387905"); ("per_page", "2")]%string))
          < 2 ^ 64) /\
  fst (GetOffsetMethod (BindPagination
         (mkContext [("page", "4611686018427387905"); ("per_page", "2")]%string)))
  = - 2 ^ 63.
Proof.
  assert (H1 : 1 <= Page (BindPagination
                (mkContext [("page", "4611686018427387905"); ("per_page", "2")]%string)))
    by zdec.
  assert (H2 : 2 ^ 63 <= (Page (BindPagination
                (mkContext [("page", "4611686018427387905"); ("per_page", "2")]%string)) - 1) *
             PerPage (BindPagination
                (mkContext [("page", "4611686018427387905"); ("per_page", "2")]%string))
          < 2 ^ 64) by (split; zdec).
  split; [split; [exact H1 | exact H2]|].
  rewrite (proj1 (CodeFacts.get_offset_wraps _ H1 H2)).
  vm_compute. reflexivity.
Defined.

Lemma last_page_window_witness :
  (1 <= 25 <= 2 ^ 53 /\ 1 <= PerPage (PaginationRequest.mk 1 10 "" "" "asc" false) <= 100 /\
   IsDisabled (PaginationRequest.mk 1 10 "" "" "asc" false) = false) /\
  PaginationResponse.MaxPage
    (CalculatePagination (- 2 ^ 63) (PaginationRequest.mk 1 10 "" "" "asc" false) 25) = 3 /\
  fst (GetOffsetMethod (PaginationRequest.mk 3 10 "" "" "asc" false)) < 25 <=
  fst (GetOffsetMethod (PaginationRequest.mk 4 10 "" "" "asc" false)).
Proof.
  assert (H1 : 1 <= 25 <= 2 ^ 53) by lia.
  assert (H2 : 1 <= PerPage (PaginationRequest.mk 1 10 "" "" "asc" false) <= 100) by (cbn; lia).
  assert (H3 : IsDisabled (PaginationRequest.mk 1 10 "" "" "asc" false) = false) by reflexivity.
  assert (Hm : PaginationResponse.MaxPage
    (CalculatePagination (- 2 ^ 63) (PaginationRequest.mk 1 10 "" "" "asc" false) 25) = 3)
    by (vm_compute; reflexivity).
  split; [split; [exact H1 | split; [exact H2 | exact H3]]|].
  split; [exact Hm|].
  pose proof (CodeFacts.last_page_window (- 2 ^ 63) _ _ H1 H2 H3) as W.
  cbv zeta in W. rewrite Hm in W. exact W.
Defined.

Lemma bind_and_validate_province_witness :
  exists s' : ProvinceFilter,
    BindAndValidateFilter (mkContext [("includes", "Athletes,Secret"); ("name", "Jawa")]%string)
      (ProvinceFilterable quote_plain) EmptyProvinceFilter = inr s' /\
    pf_Includes s' = ["Athletes"]%string /\
    Forall (fun x => x = "Athletes"%string) (pf_Includes s').
Proof.
  exists (match BindAndValidateFilter
                  (mkContext [("includes", "Athletes,Secret"); ("name", "Jawa")]%string)
                  (ProvinceFilterable quote_plain) EmptyProvinceFilter with
          | inr s' => s' | inl _ => EmptyProvinceFilter end).
  assert (H : BindAndValidateFilter
                (mkContext [("includes", "Athletes,Secret"); ("name", "Jawa")]%string)
                (ProvinceFilterable quote_plain) EmptyProvinceFilter
              = inr (match BindAndValidateFilter
                  (mkContext [("includes", "Athletes,Secret"); ("name", "Jawa")]%string)
                  (ProvinceFilterable quote_plain) EmptyProvinceFilter with
                  | inr s' => s' | inl _ => EmptyProvinceFilter end))
    by (vm_compute; reflexivity).
  split; [exact H|]. split; [vm_compute; reflexivity|].
  exact (CodeFacts.bind_and_validate_province _ _ _ _ H).
Defined.

Lemma search_placeholders_match_args_witness :
  (forall f, In f ["name"; "code"]%string -> count_placeholders f = 0%nat) /\
  (CreateSearchableFilter ["name"; "code"]%string PostgreSQL
     (mkDB "provinces" [] [] None None []) "jawa" = mkDB "provinces" [] [] None None [] \/
   exists (text : string) (args : list Arg),
     CreateSearchableFilter ["name"; "code"]%string PostgreSQL
       (mkDB "provinces" [] [] None None []) "jawa"
     = Where (mkDB "provinces" [] [] None None []) text args /\
     count_placeholders text = length args /\ length args = length ["name"; "code"]%string).
Proof.
  assert (H : forall f, In f ["name"; "code"]%string -> count_placeholders f = 0%nat).
  { intros f [<-|[<-|[]]]; reflexivity. }
  split; [exact H|].
  exact (CodeFacts.search_placeholders_match_args _ PostgreSQL _ "jawa" H).
Defined.

End CodeWitnesses.
